(** * analyze-variance.py: cross-run variance of perfcompare benchmarks

    A shallow embedding of [.github/scripts/analyze-variance.py] and the
    properties its specification states about it.

    Conventions of the embedding.
    - A Python [float] is an IEEE 754 binary64 value: Rocq's primitive [float],
      whose operations are the hardware ones (round to nearest, ties to even).
    - A Python [str] is the sequence of its UTF-8 bytes ([string]); [py_len]
      counts code points, as [len] and the format width do.
    - An exception is a value of [exn]; a computation that may raise returns
      a [result]; a computation that also prints returns an [io].
    - [print] appends one line to standard output or standard error; the
      trailing newline of each [print] is left implicit.
    - Two things that no standard fixes are left open, each behind a class
      with the laws the proofs rely on: the last bit of C's [pow] ([Libm]),
      and the order in which a directory lists its files ([Filesystem]).
      Every theorem holds for every instance. *)

From Stdlib Require Import ZArith List String Ascii Bool Lia.
From Stdlib Require Import Floats DecimalString.
From Stdlib Require Uint63.
From Stdlib Require Import Sorting.Sorted Sorting.Permutation.
Import ListNotations.

Set Warnings "-inexact-float".

Local Open Scope string_scope.

(** ** Exceptions and results *)

(** What the helpers behind the script raise: a [gh] call that exits with an
    error ([check=True]), an answer or a result file that does not parse or
    lacks a key, a bundle that is no zip file. *)
Inductive helper_error : Type :=
| CalledProcessError
| JSONDecodeError
| KeyError
| BadZipFile.

(** The exceptions the script can meet.  [SystemExit c] is what [sys.exit(c)]
    raises and only the script raises it; [Helper] wraps what [subprocess],
    [json] and [zipfile] raise; [FileExistsError] and [IsADirectoryError] come
    from the file system; the others come from the interpreter. *)
Inductive exn : Type :=
| ZeroDivisionError
| ValueError
| OverflowError
| IndexError
| FileExistsError
| IsADirectoryError
| Helper (e : helper_error)
| SystemExit (code : Z).

Inductive result (A : Type) : Type :=
| Ok (a : A)
| Raise (e : exn).
Arguments Ok {A} a.
Arguments Raise {A} e.

Definition rbind {A B} (r : result A) (k : A -> result B) : result B :=
  match r with
  | Ok a => k a
  | Raise e => Raise e
  end.

Declare Scope result_scope.
Delimit Scope result_scope with res.
Notation "x <- r ;; k" := (rbind r (fun x => k))
  (at level 61, r at next level, right associativity) : result_scope.

(** [[f(x) for x in xs]] when [f] may raise: the first exception wins. *)
Fixpoint rmap {A B} (f : A -> result B) (xs : list A) : result (list B) :=
  match xs with
  | [] => Ok []
  | x :: xs' =>
      (y <- f x ;; ys <- rmap f xs' ;; Ok (y :: ys))%res
  end.

(** ** The C library under the interpreter *)

(** [pow_2 x] is what C's [pow(x, 2.0)] returns.  CPython calls it for
    [x ** 2] on the absolute value of a finite base other than zero.  The
    library is accurate to less than one unit in the last place, but it does
    not always return the float nearest to the square, so no value is fixed
    here.  Four laws are kept, the first the accuracy itself and the others
    consequences of it:
    - the result is the rounded product [x * x] or one of the two floats next
      to it;
    - the result is no negative number and no negative zero;
    - the result is infinite exactly when the rounded product is, that is
      from [2^512] on, since no square of a smaller float lies above the
      largest float;
    - the square of a whole number up to [2^26] is a float, and is returned. *)
Class Libm : Type := {
  pow_2 : float -> float;
  pow_2_accurate : forall x : float,
    is_finite x = true ->
    pow_2 x = (x * x)%float
    \/ pow_2 x = next_up (x * x)%float \/ pow_2 x = next_down (x * x)%float;
  pow_2_sign : forall x : float,
    is_finite x = true -> abs (pow_2 x) = pow_2 x;
  pow_2_overflow : forall x : float,
    is_finite x = true -> is_infinity (pow_2 x) = is_infinity (x * x)%float;
  pow_2_whole : forall n : Z,
    (0 <= n <= 2 ^ 26)%Z ->
    pow_2 (of_uint63 (Uint63.of_Z n))
    = (of_uint63 (Uint63.of_Z n) * of_uint63 (Uint63.of_Z n))%float
}.

(** ** Python's float arithmetic *)

Module PyFloat.
Local Open Scope float_scope.

(** [float(n)] for a list length [n]: the nearest binary64 value.  Lengths are
    far below [2^63], the range of [of_uint63]. *)
Definition of_nat (n : nat) : float :=
  PrimFloat.of_uint63 (Uint63.of_Z (Z.of_nat n)).

(** [x != 0] on a float: true for NaN, false for both zeros. *)
Definition nonzero (x : float) : bool := negb (x =? 0).

(** [sum(xs)] over floats.  The accumulator starts at the integer [0], which
    becomes [0.0] at the first item, and the items are added from left to
    right (CPython up to 3.11; from 3.12 on [sum] compensates the rounding
    errors, which changes no result stated below on concrete inputs). *)
Definition sum (xs : list float) : float := fold_left PrimFloat.add xs 0.

(** [x / n] for a float [x] and the integer [n = len(values)]: raises when the
    divisor is zero. *)
Definition div_len (x : float) (n : nat) : result float :=
  match n with
  | O => Raise ZeroDivisionError
  | S _ => Ok (x / of_nat n)
  end.

(** [x / y] on floats: raises when [y] is a zero, never on overflow. *)
Definition truediv (x y : float) : result float :=
  if y =? 0 then Raise ZeroDivisionError else Ok (x / y).

(** The value of [x ** 2] when it has one.  [float_pow] returns NaN for NaN,
    [inf] for an infinity and [0.0] for a zero; otherwise it calls C's [pow] on
    the absolute value.  (It also returns [1.0] for a base of [1.0] or [-1.0]
    without a call, which is what the last law of [Libm] gives.) *)
Definition square {L : Libm} (x : float) : float :=
  if is_nan x then x
  else if is_infinity x then abs x
  else if x =? 0 then 0
  else pow_2 (abs x).

(** [x ** 2]: it raises [OverflowError] when [pow] returns an infinity for a
    finite [x]. *)
Definition pow2 {L : Libm} (x : float) : result float :=
  if is_nan x then Ok x
  else if is_infinity x then Ok (abs x)
  else if x =? 0 then Ok 0
  else let r := pow_2 (abs x) in
       if is_infinity r then Raise OverflowError else Ok r.

(** [math.sqrt(x)]: a domain error below zero, NaN for NaN. *)
Definition math_sqrt (x : float) : result float :=
  if x <? 0 then Raise ValueError else Ok (sqrt x).

(** [max(xs)] and [min(xs)]: the first item is kept until a later one compares
    strictly greater (smaller); an empty argument raises [ValueError]. *)
Definition max_from (x : float) (xs : list float) : float :=
  fold_left (fun m item => if m <? item then item else m) xs x.

Definition min_from (x : float) (xs : list float) : float :=
  fold_left (fun m item => if item <? m then item else m) xs x.

Definition max (xs : list float) : result float :=
  match xs with
  | [] => Raise ValueError
  | x :: xs' => Ok (max_from x xs')
  end.

Definition min (xs : list float) : result float :=
  match xs with
  | [] => Raise ValueError
  | x :: xs' => Ok (min_from x xs')
  end.

End PyFloat.

(** ** Fixed-point formatting: [f"{x:.Nf}"] *)

Module Fmt.
Local Open Scope Z_scope.

(** The quotient [num / den] rounded to the nearest integer, ties to even
    ([0 <= num], [0 < den]). *)
Definition round_half_even (num den : Z) : Z :=
  let q := num / den in
  match 2 * (num mod den) ?= den with
  | Lt => q
  | Gt => q + 1
  | Eq => if Z.even q then q else q + 1
  end.

(** [m * 2^e * 10^d], rounded to an integer: the digits of [m * 2^e] that
    [.{d}f] keeps.  The conversion is exact: it works on the binary value. *)
Definition scaled (d : nat) (m : positive) (e : Z) : Z :=
  let p10 := 10 ^ Z.of_nat d in
  if 0 <=? e then Zpos m * 2 ^ e * p10
  else round_half_even (Zpos m * p10) (2 ^ (- e)).

Definition digit (z : Z) : ascii := ascii_of_nat (48 + Z.to_nat z).

(** The decimal digits of a natural number, without leading zeros. *)
Definition int_digits (z : Z) : string :=
  NilZero.string_of_uint (N.to_uint (Z.to_N z)).

(** The last [d] decimal digits of [z], with leading zeros. *)
Fixpoint frac_digits (d : nat) (z : Z) : string :=
  match d with
  | O => ""
  | S d' => frac_digits d' (z / 10) ++ String (digit (z mod 10)) ""
  end.

(** [q / 10^d] written with [d] decimals. *)
Definition decimal (d : nat) (q : Z) : string :=
  let p10 := 10 ^ Z.of_nat d in
  match d with
  | O => int_digits q
  | S _ => int_digits (q / p10) ++ "." ++ frac_digits d (q mod p10)
  end.

Definition sign (s : bool) : string := if s then "-" else "".

(** [format(x, ".{d}f")]: [nan], [inf] and [-inf] for the special values;
    otherwise the sign (also of [-0.0] and of a negative value that rounds to
    zero) and the correctly rounded decimal expansion. *)
Definition fixed (d : nat) (x : float) : string :=
  match Prim2SF x with
  | S754_nan => "nan"
  | S754_infinity s => sign s ++ "inf"
  | S754_zero s => sign s ++ decimal d 0
  | S754_finite s m e => sign s ++ decimal d (scaled d m e)
  end.

(** [str(n)] for an integer. *)
Definition of_Z (z : Z) : string := NilZero.string_of_int (Z.to_int z).
Definition of_nat (n : nat) : string := of_Z (Z.of_nat n).

End Fmt.

(** ** helpers *)

Local Open Scope float_scope.

(** "µ" is U+00B5: two bytes in UTF-8. *)
Definition micro_sign : string := String "194" (String "181" "").

Definition format_duration (seconds : float) : string :=
  let ms := seconds * 1000 in
  if ms <? 1 then Fmt.fixed 2 (ms * 1000) ++ " " ++ micro_sign ++ "s"
  else if ms <? 1000 then Fmt.fixed 2 ms ++ " ms"
  else Fmt.fixed 3 (ms / 1000) ++ " s".

(** The dictionary [stats] returns; [_cv_raw] is [-1] when [cv] is NaN. *)
Record summary : Type := {
  average : string;
  std : string;
  cv : string;
  range : string;
  range_coeff : string;
  _cv_raw : float
}.

(** [f"{c * 100:.1f}%" if not math.isnan(c) else "N/A"]. *)
Definition percent (c : float) : string :=
  if is_nan c then "N/A" else Fmt.fixed 1 (c * 100) ++ "%".

Definition stats {L : Libm} (values : list float) : result summary :=
  let n := List.length values in
  (average <- PyFloat.div_len (PyFloat.sum values) n ;;
   squares <- rmap (fun v => PyFloat.pow2 (v - average)) values ;;
   variance <- PyFloat.div_len (PyFloat.sum squares) n ;;
   std <- PyFloat.math_sqrt variance ;;
   cv <- (if PyFloat.nonzero average then PyFloat.truediv std average else Ok nan) ;;
   hi <- PyFloat.max values ;;
   lo <- PyFloat.min values ;;
   let rng := hi - lo in
   rc <- (if PyFloat.nonzero average then PyFloat.truediv rng average else Ok nan) ;;
   Ok {| average := format_duration average;
         std := format_duration std;
         cv := percent cv;
         range := format_duration rng;
         range_coeff := percent rc;
         _cv_raw := if is_nan cv then -1 else cv |})%res.

Local Close Scope float_scope.

(** ** Strings as Python sees them *)

Module PyStr.

(** A byte that starts a code point: not one of UTF-8's continuation bytes
    [10xxxxxx]. *)
Definition starts_code_point (c : ascii) : bool :=
  let n := nat_of_ascii c in (n <? 128)%nat || (192 <=? n)%nat.

(** [len(s)]: the number of code points. *)
Fixpoint len (s : string) : nat :=
  match s with
  | EmptyString => 0
  | String c s' => (if starts_code_point c then 1 else 0) + len s'
  end.

(** [c * n]. *)
Fixpoint repeat (c : ascii) (n : nat) : string :=
  match n with
  | O => ""
  | S n' => String c (repeat c n')
  end.

(** [f"{s:<{w}}"] and [f"{s:>{w}}"]: padding with spaces up to width [w]. *)
Definition ljust (w : nat) (s : string) : string := s ++ repeat " " (w - len s).
Definition rjust (w : nat) (s : string) : string := repeat " " (w - len s) ++ s.

(** [", ".join(xs)]. *)
Fixpoint join (sep : string) (xs : list string) : string :=
  match xs with
  | [] => ""
  | [x] => x
  | x :: xs' => x ++ sep ++ join sep xs'
  end.

(** [repr] of a list of integers, as [f"{run_ids}"] prints it. *)
Definition repr_ints (xs : list Z) : string :=
  "[" ++ join ", " (map Fmt.of_Z xs) ++ "]".

Definition newline : string := String "010" "".

End PyStr.

(** ** Printing *)

Inductive stream : Type := Stdout | Stderr.

(** One call of [print]: the stream and the text. *)
Definition line : Type := (stream * string)%type.

(** A computation that prints and then returns or raises.  What was printed
    before an exception stays printed. *)
Definition io (A : Type) : Type := (list line * result A)%type.

Definition ret {A} (a : A) : io A := ([], Ok a).
Definition raise {A} (e : exn) : io A := ([], Raise e).
Definition lift {A} (r : result A) : io A := ([], r).
Definition print (s : string) : io unit := ([(Stdout, s)], Ok tt).
Definition eprint (s : string) : io unit := ([(Stderr, s)], Ok tt).

Definition bind {A B} (m : io A) (k : A -> io B) : io B :=
  match snd m with
  | Ok a => ((fst m ++ fst (k a))%list, snd (k a))
  | Raise e => (fst m, Raise e)
  end.

Declare Scope io_scope.
Delimit Scope io_scope with io.
Notation "x <- m ;; k" := (bind m (fun x => k))
  (at level 61, m at next level, right associativity) : io_scope.
Notation "m ;; k" := (bind m (fun _ => k))
  (at level 61, right associativity) : io_scope.

Definition printed {A} (m : io A) : list line := fst m.
Definition stdout_of (ls : list line) : list string :=
  map snd (filter (fun l => match fst l with Stdout => true | Stderr => false end) ls).
Definition stderr_of (ls : list line) : list string :=
  map snd (filter (fun l => match fst l with Stderr => true | Stdout => false end) ls).

(** The exit status of the interpreter: [0] after a normal return, the code of
    [sys.exit], and [1] after any other exception, which is reported with a
    traceback. *)
Definition exit_status {A} (m : io A) : Z :=
  match snd m with
  | Ok _ => 0
  | Raise (SystemExit code) => code
  | Raise _ => 1
  end.

(** ** The remote side: the GitHub API behind [gh] *)

(** One hyperfine result: [data["results"][0]] of a result file. *)
Module Hyperfine.
Record t : Type := { mean : float; min : float; times : list float }.
End Hyperfine.

(** One entry of [data["workflow_runs"]]. *)
Record workflow_run : Type := {
  run_id : Z;
  head_branch : string;
  conclusion : string
}.

(** One entry of [...["artifacts"]]. *)
Record artifact : Type := { artifact_id : Z; artifact_name : string }.

(** What a helper gives: a value, or the exception it raises. *)
Inductive answer (A : Type) : Type :=
| Answer (a : A)
| Fails (e : helper_error).
Arguments Answer {A} a.
Arguments Fails {A} e.

Definition answered {A} (r : answer A) : result A :=
  match r with
  | Answer a => Ok a
  | Fails e => Raise (Helper e)
  end.

(** A top-level [*.json] member of a bundle: its stem, and what
    [json.loads(...)["results"]] gives for its text. *)
Record json_member : Type := {
  stem : string;
  results : answer (list Hyperfine.t)
}.

(** What the [gh] calls answer, by repository: the runs of the workflow
    [perfcompare.yml], the artifacts of a run, the members of an artifact's
    bundle. *)
Record remote : Type := {
  workflow_runs : string -> answer (list workflow_run);
  artifacts : string -> Z -> answer (list artifact);
  zip : string -> Z -> answer (list json_member)
}.

(** ** Dictionaries

    A [dict] keeps its keys in insertion order and holds each key once: an
    association list whose keys are distinct. *)

Module Dict.
Section Dict.
Context {V : Type}.

Definition t : Type := list (string * V).

Definition keys (d : t) : list string := map fst d.
Definition values (d : t) : list V := map snd d.

Definition wf (d : t) : Prop := NoDup (keys d).

Fixpoint get (k : string) (d : t) : option V :=
  match d with
  | [] => None
  | (k', v) :: d' => if String.eqb k k' then Some v else get k d'
  end.

(** [d[k] = v]: a present key keeps its place, a new one goes last. *)
Fixpoint set (k : string) (v : V) (d : t) : t :=
  match d with
  | [] => [(k, v)]
  | (k', v') :: d' =>
      if String.eqb k k' then (k', v) :: d' else (k', v') :: set k v d'
  end.

End Dict.
Arguments t V : clear implicits.

(** [d.setdefault(k, []).append(v)]. *)
Definition setdefault_append {V} (k : string) (v : V) (d : t (list V)) : t (list V) :=
  match get k d with
  | Some vs => set k (vs ++ [v])%list d
  | None => set k [v] d
  end.

End Dict.

(** ** artifact fetching *)

(** A result as the collector holds it.  [origin] is a ghost field: the run
    whose bundle the file came out of.  The script keeps only the hyperfine
    dictionary, and nothing it computes depends on [origin]. *)
Record entry : Type := { origin : Z; hyperfine : Hyperfine.t }.

Definition bench_groups : Type := Dict.t (list entry).

(** A file of the temporary directory: the stem of its name, the run whose
    bundle wrote it (ghost), and what reading it gives. *)
Record file : Type := {
  file_stem : string;
  file_origin : Z;
  file_results : answer (list Hyperfine.t)
}.

(** The temporary directory: one sub-directory per artifact name, each with
    its [*.json] files in the order in which they were first written.  Beside
    the directory of each name [n] stands the file [n.zip] of its bundle;
    nothing else is in the temporary directory. *)
Definition tmpdir : Type := Dict.t (list file).

(** [glob dir] is what [out_dir.glob("*.json")] yields for the files [dir]: the
    same files, in the order of the file system, which nothing fixes. *)
Class Filesystem : Type := {
  glob : list file -> list file;
  glob_perm : forall dir : list file, Permutation (glob dir) dir
}.

(** Writing a file replaces a file of the same name. *)
Fixpoint write_file (f : file) (dir : list file) : list file :=
  match dir with
  | [] => [f]
  | g :: dir' =>
      if String.eqb (file_stem f) (file_stem g) then f :: dir'
      else g :: write_file f dir'
  end.

(** [zf.extractall(out_dir)] into a directory that may hold files already. *)
Definition extractall (run : Z) (members : list json_member) (dir : list file) : list file :=
  fold_left
    (fun d m => write_file {| file_stem := stem m; file_origin := run;
                              file_results := results m |} d)
    members dir.

(** [dest / f"{name}.zip"] is a directory: the directory of an earlier artifact
    is called [name.zip]. *)
Definition zip_path_is_directory (name : string) (tmp : tmpdir) : bool :=
  existsb (String.eqb (name ++ ".zip")) (Dict.keys tmp).

(** [dest / name] is a file: the bundle of an earlier artifact [n] was written
    to [n.zip], and that is [name]. *)
Definition out_dir_is_file (name : string) (tmp : tmpdir) : bool :=
  existsb (fun n => String.eqb (n ++ ".zip") name) (Dict.keys tmp).

(** [download_artifact], step by step: the [gh] call, which may fail;
    [zip_path.write_bytes], which fails on a directory; [out_dir.mkdir], which
    reuses a directory left by an earlier artifact of that name
    ([exist_ok=True]) and fails on a file; [ZipFile] and [extractall], which
    fail on a bundle that is no zip file.  Returns the directory's [*.json]
    files, as [out_dir.glob] yields them in [collect_jsons]. *)
Definition download_artifact {F : Filesystem} (gh : remote) (repo : string) (run : Z)
    (a : artifact) (tmp : tmpdir) : result (tmpdir * list file) :=
  let name := artifact_name a in
  match zip gh repo (artifact_id a) with
  | Fails CalledProcessError => Raise (Helper CalledProcessError)
  | fetched =>
      if zip_path_is_directory name tmp then Raise IsADirectoryError
      else if out_dir_is_file name tmp then Raise FileExistsError
      else
        (members <- answered fetched ;;
         let old := match Dict.get name tmp with Some dir => dir | None => [] end in
         let out_dir := extractall run members old in
         Ok (Dict.set name out_dir tmp, glob out_dir))%res
  end.

(** The loop over [out_dir.glob("*.json")]. *)
Fixpoint load_files (run : Z) (files : list file) (by_bench : bench_groups)
    : io bench_groups :=
  match files with
  | [] => ret by_bench
  | f :: rest =>
      (let bench_name := file_stem f in
       data <- lift (answered (file_results f)) ;;
       result <- lift (match data with
                       | [] => Raise IndexError
                       | r :: _ => Ok r
                       end) ;;
       let by_bench' :=
         Dict.setdefault_append bench_name
           {| origin := file_origin f; hyperfine := result |} by_bench in
       print ("  run " ++ Fmt.of_Z run ++ ": loaded " ++ bench_name ++ " ("
              ++ Fmt.of_nat (List.length (Hyperfine.times result))
              ++ " samples, mean="
              ++ Fmt.fixed 1 (Hyperfine.mean result * 1000)%float ++ "ms)") ;;
       load_files run rest by_bench')%io
  end.

(** The loop over [perf_artifacts]. *)
Fixpoint load_artifacts {F : Filesystem} (gh : remote) (repo : string) (run : Z)
    (perf_artifacts : list artifact) (st : tmpdir * bench_groups)
    : io (tmpdir * bench_groups) :=
  match perf_artifacts with
  | [] => ret st
  | a :: rest =>
      (d <- lift (download_artifact gh repo run a (fst st)) ;;
       by_bench' <- load_files run (snd d) (snd st) ;;
       load_artifacts gh repo run rest (fst d, by_bench'))%io
  end.

Definition is_perf_artifact (a : artifact) : bool :=
  String.prefix "perfcompare-" (artifact_name a).

(** The loop over [run_ids]. *)
Fixpoint collect_runs {F : Filesystem} (gh : remote) (repo : string) (run_ids : list Z)
    (st : tmpdir * bench_groups) : io (tmpdir * bench_groups) :=
  match run_ids with
  | [] => ret st
  | run :: rest =>
      (arts <- lift (answered (artifacts gh repo run)) ;;
       let perf_artifacts := filter is_perf_artifact arts in
       match perf_artifacts with
       | [] =>
           print ("  run " ++ Fmt.of_Z run ++ ": no perfcompare artifact, skipping") ;;
           collect_runs gh repo rest st
       | _ =>
           st' <- load_artifacts gh repo run perf_artifacts st ;;
           collect_runs gh repo rest st'
       end)%io
  end.

Definition collect_jsons {F : Filesystem} (gh : remote) (repo : string) (run_ids : list Z)
    : io bench_groups :=
  (st <- collect_runs gh repo run_ids ([], []) ;; ret (snd st))%io.

Definition get_run_ids (gh : remote) (repo branch : string) : io (list Z) :=
  (data <- lift (answered (workflow_runs gh repo)) ;;
   let runs := filter (fun r => String.eqb (head_branch r) branch
                                && String.eqb (conclusion r) "success") data in
   match runs with
   | [] =>
       eprint ("No successful perfcompare runs found on branch '" ++ branch ++ "'") ;;
       raise (SystemExit 1)
   | _ =>
       print ("Found " ++ Fmt.of_nat (List.length runs)
              ++ " successful run(s) on '" ++ branch ++ "'") ;;
       ret (map run_id runs)
   end)%io.

(** ** analysis *)

(** The field a pass reads from each result: ["min"] or ["mean"]. *)
Inductive selector : Type := Min | Mean.

Definition select (key : selector) (r : entry) : float :=
  match key with
  | Min => Hyperfine.min (hyperfine r)
  | Mean => Hyperfine.mean (hyperfine r)
  end.

(** [sorted(xs, key=key)]: a stable sort that compares keys with [<].  On keys
    that are totally ordered (no NaN) every stable sort gives this list. *)
Fixpoint insert_by {A} (key : A -> float) (x : A) (l : list A) : list A :=
  match l with
  | [] => [x]
  | y :: l' => if (key y <? key x)%float then y :: insert_by key x l' else x :: l
  end.

Definition sorted {A} (key : A -> float) (l : list A) : list A :=
  fold_right (insert_by key) [] l.

(** The first loop of a pass: one row per benchmark with two values or more,
    a diagnostic for each of the others.  The loop is written over the
    function it calls on the values, which is [stats]. *)
Section Rows.
Variable stats_fn : list float -> result summary.

Fixpoint build_rows_with (key : selector) (items : list (string * list entry))
    (rows : Dict.t summary) : io (Dict.t summary) :=
  match items with
  | [] => ret rows
  | (bench, results) :: rest =>
      let values := map (select key) results in
      if (List.length values <? 2)%nat then
        (eprint ("  " ++ bench ++ ": only " ++ Fmt.of_nat (List.length values)
                 ++ " run(s), skipping") ;;
         build_rows_with key rest rows)%io
      else
        (s <- lift (stats_fn values) ;;
         build_rows_with key rest (Dict.set bench s rows))%io
  end.

End Rows.

Definition build_rows {L : Libm} := build_rows_with stats.

Definition table_header (col_w : nat) : string :=
  PyStr.ljust col_w "benchmark" ++ "  " ++ PyStr.rjust 12 "average" ++ "  "
  ++ PyStr.rjust 10 "std" ++ "  " ++ PyStr.rjust 7 "cv" ++ "  "
  ++ PyStr.rjust 12 "range" ++ "  " ++ PyStr.rjust 7 "range%".

Definition table_row (col_w : nat) (bench : string) (s : summary) : string :=
  PyStr.ljust col_w bench ++ "  " ++ PyStr.rjust 12 (average s) ++ "  "
  ++ PyStr.rjust 10 (std s) ++ "  " ++ PyStr.rjust 7 (cv s) ++ "  "
  ++ PyStr.rjust 12 (range s) ++ "  " ++ PyStr.rjust 7 (range_coeff s).

Fixpoint print_rows (col_w : nat) (rows : list (string * summary)) : io unit :=
  match rows with
  | [] => ret tt
  | (bench, s) :: rest => (print (table_row col_w bench s) ;; print_rows col_w rest)%io
  end.

(** [len(next(iter(by_bench.values()), '') or [])]. *)
Definition first_group_size (by_bench : bench_groups) : nat :=
  match by_bench with
  | [] => 0
  | (_, results) :: _ => List.length results
  end.

(** One iteration of the loop over [("MIN", "min"), ("MEAN", "mean")]. *)
Definition analyze_pass {L : Libm} (label : string) (key : selector) (by_bench : bench_groups)
    : io unit :=
  (rows <- build_rows key by_bench [] ;;
   match rows with
   | [] => ret tt
   | _ =>
       let sorted_rows := sorted (fun x => (- _cv_raw (snd x))%float) rows in
       print (PyStr.newline ++ "=== Variance using walltime " ++ label ++ " ("
              ++ Fmt.of_nat (first_group_size by_bench) ++ " runs) ===") ;;
       let col_w := list_max (map PyStr.len (Dict.keys rows)) + 2 in
       let header := table_header col_w in
       print header ;;
       print (PyStr.repeat "-" (PyStr.len header)) ;;
       print_rows col_w sorted_rows
   end)%io.

Definition analyze {L : Libm} (by_bench : bench_groups) : io unit :=
  (analyze_pass "MIN" Min by_bench ;; analyze_pass "MEAN" Mean by_bench)%io.

(** ** main *)

(** The parsed command line; [--workflow-run-ids] is [None] when absent. *)
Record args : Type := {
  repo : string;
  branch : string;
  workflow_run_ids : option (list Z)
}.

Definition main {L : Libm} {F : Filesystem} (gh : remote) (a : args) : io unit :=
  (run_ids <- match workflow_run_ids a with
              | Some (r :: rs) => ret (r :: rs)
              | _ => get_run_ids gh (repo a) (branch a)
              end ;;
   print ("Using " ++ Fmt.of_nat (List.length run_ids) ++ " run(s): "
          ++ PyStr.repr_ints run_ids) ;;
   by_bench <- collect_jsons gh (repo a) run_ids ;;
   match by_bench with
   | [] => eprint "No results collected." ;; raise (SystemExit 1)
   | _ =>
       let n_runs := first_group_size by_bench in
       print (PyStr.newline ++ "Collected " ++ Fmt.of_nat n_runs ++ " run(s) across "
              ++ Fmt.of_nat (List.length by_bench) ++ " benchmark(s)") ;;
       analyze by_bench
   end)%io.

(** * The statistics as the specification words them

    The second reading of [stats]: each quantity by its formula, on the same
    floats.  The theorems below compare [stats] with it. *)

Section SpecStatistics.
Context {L : Libm}.
Local Open Scope float_scope.

(** average = arithmetic mean of the values. *)
Definition spec_average (values : list float) : float :=
  PyFloat.sum values / PyFloat.of_nat (List.length values).

(** The squared deviations from the average, squared as [**] squares. *)
Definition spec_squared_deviations (values : list float) : list float :=
  map (fun v => PyFloat.square (v - spec_average values)) values.

(** variance = mean of the squared deviations (divisor [n]). *)
Definition spec_variance (values : list float) : float :=
  PyFloat.sum (spec_squared_deviations values) / PyFloat.of_nat (List.length values).

(** standard deviation = square root of the variance. *)
Definition spec_std (values : list float) : float := sqrt (spec_variance values).

(** range = max(values) - min(values). *)
Definition spec_range (values : list float) : float :=
  match values with
  | [] => nan
  | v :: rest => PyFloat.max_from v rest - PyFloat.min_from v rest
  end.

(** [x / average], undefined (NaN) when the average is exactly zero. *)
Definition spec_ratio (x average : float) : float :=
  if average =? 0 then nan else x / average.

Definition spec_cv (values : list float) : float :=
  spec_ratio (spec_std values) (spec_average values).

Definition spec_range_coeff (values : list float) : float :=
  spec_ratio (spec_range values) (spec_average values).

Definition spec_summary (values : list float) : summary :=
  {| average := format_duration (spec_average values);
     std := format_duration (spec_std values);
     cv := percent (spec_cv values);
     range := format_duration (spec_range values);
     range_coeff := percent (spec_range_coeff values);
     _cv_raw := if is_nan (spec_cv values) then -1 else spec_cv values |}.

(** A finite number whose square is beyond the largest float: the one case in
    which [**] raises. *)
Definition square_overflows (x : float) : bool :=
  is_finite x && is_infinity (x * x).

(** No squared deviation of [values] overflows. *)
Definition deviations_in_range (values : list float) : bool :=
  forallb (fun v => negb (square_overflows (v - spec_average values))) values.

(** The summary of a list whose values all equal [v]. *)
Definition equal_values_summary (v : float) : summary :=
  {| average := format_duration v;
     std := "0.00 µs";
     cv := if v =? 0 then "N/A" else "0.0%";
     range := "0.00 µs";
     range_coeff := if v =? 0 then "N/A" else "0.0%";
     _cv_raw := if v =? 0 then -1 else 0 |}.

End SpecStatistics.

(** * Vocabulary of the further properties

    Names for what the script prints and for the conditions under which the
    theorems of the last part hold. *)

(** ** Numerals *)

Definition is_digit (c : ascii) : bool :=
  let n := nat_of_ascii c in (48 <=? n)%nat && (n <=? 57)%nat.

Fixpoint all_digits (s : string) : bool :=
  match s with
  | EmptyString => true
  | String c s' => is_digit c && all_digits s'
  end.

(** A numeral with exactly [d] decimals: an optional minus sign, at least one
    digit, a point and [d] digits. *)
Definition fixed_point (d : nat) (s : string) : Prop :=
  exists sg int frac : string,
    s = sg ++ int ++ "." ++ frac
    /\ (sg = "" \/ sg = "-")
    /\ int <> "" /\ all_digits int = true
    /\ all_digits frac = true /\ String.length frac = d.

(** [s] is the float [x] written with [d] decimals and followed by [unit];
    a finite [x] is written as a numeral. *)
Definition rendered (unit : string) (d : nat) (x : float) (s : string) : Prop :=
  s = Fmt.fixed d x ++ " " ++ unit
  /\ (is_finite x = true -> fixed_point d (Fmt.fixed d x)).

(** ** The passes of the analysis *)

(** A benchmark with fewer than two results, and the others. *)
Definition short (item : string * list entry) : bool :=
  (List.length (snd item) <? 2)%nat.

Definition long (item : string * list entry) : bool := negb (short item).

(** The diagnostic of a skipped benchmark. *)
Definition skip_line (item : string * list entry) : line :=
  (Stderr, "  " ++ fst item ++ ": only " ++ Fmt.of_nat (List.length (snd item))
           ++ " run(s), skipping").

(** The values a pass reads from a benchmark. *)
Definition values_of (key : selector) (item : string * list entry) : list float :=
  map (select key) (snd item).

Definition pass_title (label : string) (by_bench : bench_groups) : string :=
  PyStr.newline ++ "=== Variance using walltime " ++ label ++ " ("
  ++ Fmt.of_nat (first_group_size by_bench) ++ " runs) ===".

Definition column_width (rows : Dict.t summary) : nat :=
  list_max (map PyStr.len (Dict.keys rows)) + 2.

Definition row_line (col_w : nat) (row : string * summary) : line :=
  (Stdout, table_row col_w (fst row) (snd row)).

(** The sort key of a row. *)
Definition by_cv (row : string * summary) : float := (- _cv_raw (snd row))%float.

(** [r1] may stand before [r2] in a table sorted by descending coefficient. *)
Definition cv_descending (r1 r2 : string * summary) : Prop :=
  (_cv_raw (snd r2) <=? _cv_raw (snd r1))%float = true.

(** [a] may stand before [b] in a list sorted by [key]. *)
Definition key_le {A} (key : A -> float) (a b : A) : Prop :=
  (key a <=? key b)%float = true.

(** The rows whose raw coefficient equals [c], as [==] compares floats: the
    rows that tie with one another in the sort. *)
Definition same_cv (c : float) (row : string * summary) : bool :=
  (_cv_raw (snd row) =? c)%float.

(** [stats] behind a check of the length of its argument. *)
Definition stats_guarded {L : Libm} (values : list float) : result summary :=
  if (List.length values <? 2)%nat then Raise ValueError else stats values.

(** The statistics fit the columns of the table. *)
Definition fits_columns (s : summary) : Prop :=
  (PyStr.len (average s) <= 12 /\ PyStr.len (std s) <= 10 /\ PyStr.len (cv s) <= 7
   /\ PyStr.len (range s) <= 12 /\ PyStr.len (range_coeff s) <= 7)%nat.

(** Two lists of groups that a pass cannot tell apart: the same benchmarks
    with the same values of the selected field. *)
Definition same_values (key : selector) (b1 b2 : bench_groups) : Prop :=
  Forall2 (fun i1 i2 => fst i1 = fst i2 /\ values_of key i1 = values_of key i2) b1 b2.

(** ** What a computation prints and raises *)

Definition on_stdout (l : line) : Prop := fst l = Stdout.

(** The exceptions of the collection: an empty list of results, a name that
    is taken in the temporary directory, and what the helpers raise. *)
Definition collect_error (e : exn) : Prop :=
  e = IndexError \/ e = FileExistsError \/ e = IsADirectoryError
  \/ exists h, e = Helper h.

Definition effects {A} (P : exn -> Prop) (m : io A) : Prop :=
  Forall on_stdout (fst m) /\ match snd m with Ok _ => True | Raise e => P e end.

Definition not_exit (e : exn) : Prop := forall c, e <> SystemExit c.

(** How the script ends: normally, by [sys.exit(1)] right after a line on
    standard error, or by an exception other than [SystemExit]. *)
Definition ends_well (m : io unit) : Prop :=
  snd m = Ok tt
  \/ (snd m = Raise (SystemExit 1)
      /\ exists out msg, fst m = (out ++ [(Stderr, msg)])%list)
  \/ (exists e, snd m = Raise e /\ not_exit e).

(** ** Runs, artifacts and bundles *)

(** The run has an artifact to load, or its artifacts cannot be listed. *)
Definition has_perf_artifact (gh : remote) (repo : string) (run : Z) : bool :=
  match artifacts gh repo run with
  | Answer arts =>
      match filter is_perf_artifact arts with
      | [] => false
      | _ :: _ => true
      end
  | Fails _ => true
  end.

Definition no_artifact_line (run : Z) : line :=
  (Stdout, "  run " ++ Fmt.of_Z run ++ ": no perfcompare artifact, skipping").

Definition using_line (run_ids : list Z) : line :=
  (Stdout, "Using " ++ Fmt.of_nat (List.length run_ids) ++ " run(s): "
           ++ PyStr.repr_ints run_ids).

Definition successful_on (branch : string) (r : workflow_run) : bool :=
  String.eqb (head_branch r) branch && String.eqb (conclusion r) "success".

Definition no_runs_line (branch : string) : line :=
  (Stderr, "No successful perfcompare runs found on branch '" ++ branch ++ "'").

Definition found_line (n : nat) (branch : string) : line :=
  (Stdout, "Found " ++ Fmt.of_nat n ++ " successful run(s) on '" ++ branch ++ "'").

(** The remote side with another answer to the listing of workflow runs. *)
Definition with_workflow_runs (gh : remote)
    (runs : string -> answer (list workflow_run)) : remote :=
  {| workflow_runs := runs; artifacts := artifacts gh; zip := zip gh |}.

(** The command line with the option [--workflow-run-ids]. *)
Definition with_run_ids (a : args) (ids : list Z) : args :=
  {| repo := repo a; branch := branch a; workflow_run_ids := Some ids |}.

(** The file a member of a bundle is unpacked to. *)
Definition member_file (run : Z) (m : json_member) : file :=
  {| file_stem := stem m; file_origin := run; file_results := results m |}.

(** The files under [dest / name] before a download. *)
Definition listing (name : string) (tmp : tmpdir) : list file :=
  match Dict.get name tmp with
  | Some dir => dir
  | None => []
  end.

Definition perf_artifacts (gh : remote) (repo : string) (run : Z) : list artifact :=
  match artifacts gh repo run with
  | Answer arts => filter is_perf_artifact arts
  | Fails _ => []
  end.

Definition bundle_stems (gh : remote) (repo : string) (a : artifact) : list string :=
  match zip gh repo (artifact_id a) with
  | Answer members => map stem members
  | Fails _ => []
  end.

(** The benchmark names in the bundles of a run, bundle after bundle. *)
Definition run_stems (gh : remote) (repo : string) (run : Z) : list string :=
  List.concat (map (bundle_stems gh repo) (perf_artifacts gh repo run)).

(** Every file of [dir] bears a benchmark name of the bundle of [a]. *)
Definition covered_by (gh : remote) (repo : string) (a : artifact) (dir : list file) : Prop :=
  forall f, In f dir -> In (file_stem f) (bundle_stems gh repo a).

(** The bundles of the artifacts of one name hold the same benchmarks, from
    run to run. *)
Definition same_benchmarks (gh : remote) (repo : string) (runs : list Z) : Prop :=
  forall r1 r2 a1 a2,
    In r1 runs -> In r2 runs ->
    In a1 (perf_artifacts gh repo r1) -> In a2 (perf_artifacts gh repo r2) ->
    artifact_name a1 = artifact_name a2 ->
    incl (bundle_stems gh repo a1) (bundle_stems gh repo a2).

(** ** What the collection keeps true *)

(** Each directory holds one file for a name, and only names of the bundle
    of an artifact that bears the name of the directory. *)
Definition dirs_covered (gh : remote) (repo : string) (runs : list Z) (tmp : tmpdir) : Prop :=
  forall name dir, In (name, dir) tmp ->
    NoDup (map file_stem dir)
    /\ exists run a, In run runs /\ In a (perf_artifacts gh repo run)
                     /\ artifact_name a = name /\ covered_by gh repo a dir.


(** The file [f] is a member of the bundle of a perfcompare artifact of the
    run [file_origin f], one of [runs]: it has the name and the content of
    the member. *)
Definition unpacked_from (gh : remote) (repo : string) (runs : list Z) (f : file) : Prop :=
  In (file_origin f) runs
  /\ exists a members m,
       In a (perf_artifacts gh repo (file_origin f))
       /\ zip gh repo (artifact_id a) = Answer members /\ In m members
       /\ file_stem f = stem m /\ file_results f = results m.

(** The result [e] of the benchmark [bench] is the first result of the file
    [bench.json] in the bundle of a perfcompare artifact of the run
    [origin e], one of [runs]. *)
Definition loaded_from (gh : remote) (repo : string) (runs : list Z)
    (bench : string) (e : entry) : Prop :=
  In (origin e) runs
  /\ exists a members m rest,
       In a (perf_artifacts gh repo (origin e))
       /\ zip gh repo (artifact_id a) = Answer members /\ In m members
       /\ stem m = bench /\ results m = Answer (hyperfine e :: rest).

Definition files_from (gh : remote) (repo : string) (runs : list Z)
    (dir : list file) : Prop :=
  Forall (unpacked_from gh repo runs) dir.

Definition tmp_from (gh : remote) (repo : string) (runs : list Z) (tmp : tmpdir) : Prop :=
  forall name dir, In (name, dir) tmp -> files_from gh repo runs dir.

Definition groups_from (gh : remote) (repo : string) (runs : list Z)
    (by_bench : bench_groups) : Prop :=
  Dict.wf by_bench
  /\ forall bench group, In (bench, group) by_bench ->
       group <> [] /\ Forall (loaded_from gh repo runs bench) group.

Definition state_from (gh : remote) (repo : string) (runs : list Z)
    (st : tmpdir * bench_groups) : Prop :=
  tmp_from gh repo runs (fst st) /\ groups_from gh repo runs (snd st).

(** Each result of a group was appended for a pair (run, benchmark) of [P],
    and no group has two results of one run. *)
Definition appended (P : list (Z * string)) (by_bench : bench_groups) : Prop :=
  forall bench group, In (bench, group) by_bench ->
    NoDup (map origin group) /\ forall e, In e group -> In (origin e, bench) P.

Definition pair_of (f : file) : Z * string := (file_origin f, file_stem f).

(** ** Sample data *)

Definition sample_result (lo mid : float) : Hyperfine.t :=
  {| Hyperfine.mean := mid; Hyperfine.min := lo; Hyperfine.times := [lo; mid] |}.

Definition sample_entry (run : Z) (lo mid : float) : entry :=
  {| origin := run; hyperfine := sample_result lo mid |}.

(** Three benchmarks: two runs, a zero average, one run only. *)
Definition sample_groups : bench_groups :=
  [("transfer", [sample_entry 1 1 1.5; sample_entry 2 1.2 1.6]);
   ("idle", [sample_entry 1 0 0; sample_entry 2 0 0]);
   ("handshake", [sample_entry 2 0.5 0.75])]%float.

(** The bundle of every artifact: two benchmarks. *)
Definition sample_members : list json_member :=
  [ {| stem := "transfer"; results := Answer [sample_result 1 1.5] |};
    {| stem := "idle"; results := Answer [sample_result 0 0] |} ]%float.

(** Two runs with one bundle each, under the same artifact name, and a third
    run without. *)
Definition sample_remote : remote :=
  {| workflow_runs := fun _ =>
       Answer [ {| run_id := 1; head_branch := "main"; conclusion := "success" |};
                {| run_id := 2; head_branch := "main"; conclusion := "failure" |};
                {| run_id := 3; head_branch := "main"; conclusion := "success" |} ];
     artifacts := fun _ run =>
       if (run =? 3)%Z then Answer [ {| artifact_id := 30; artifact_name := "logs" |} ]
       else Answer [ {| artifact_id := run; artifact_name := "perfcompare-linux" |} ];
     zip := fun _ a => Answer sample_members |}.

(** Two benchmarks without a coefficient of variation around one with. *)
Definition sample_ties : bench_groups :=
  [("idle", [sample_entry 1 0 0; sample_entry 2 0 0]);
   ("transfer", [sample_entry 1 1 1.5; sample_entry 2 1.2 1.6]);
   ("sleep", [sample_entry 1 0 0; sample_entry 2 0 0])]%float.

(** A single result per benchmark. *)
Definition sample_single : bench_groups :=
  [("transfer", [sample_entry 1 1 1.5]); ("handshake", [sample_entry 2 0.5 0.75])]%float.

(** The groups of [sample_groups] with other averages and samples. *)
Definition sample_groups_other : bench_groups :=
  [("transfer", [sample_entry 7 1 3; sample_entry 8 1.2 4]);
   ("idle", [sample_entry 7 0 9; sample_entry 8 0 2]);
   ("handshake", [sample_entry 9 0.5 1])]%float.

(** A directory that an artifact of an earlier run left behind. *)
Definition stale_file : file :=
  {| file_stem := "handshake"; file_origin := 1;
     file_results := Answer [sample_result 0.5 0.75]%float |}.

(** A file of an earlier run that the bundle replaces. *)
Definition replaced_file : file :=
  {| file_stem := "transfer"; file_origin := 1;
     file_results := Answer [sample_result 9 9]%float |}.

Definition sample_tmp : tmpdir := [("perfcompare-linux", [stale_file; replaced_file])].

Definition sample_artifact : artifact :=
  {| artifact_id := 2; artifact_name := "perfcompare-linux" |}.

Definition sample_args (ids : option (list Z)) : args :=
  {| repo := "mozilla/neqo"; branch := "main"; workflow_run_ids := ids |}.

(** * Facts about binary64 arithmetic

    Read off the bit-level specification of the primitive operations
    ([Prim2SF] and the [SF...] functions). *)

Module FloatFacts.
Local Open Scope float_scope.

Lemma Prim2SF_zero : Prim2SF 0 = S754_zero false.
Proof. reflexivity. Qed.

Lemma Prim2SF_infinity : Prim2SF infinity = S754_infinity false.
Proof. reflexivity. Qed.

Lemma SFcompare_refl (X : spec_float) :
  X <> S754_nan -> SFcompare X X = Some Eq.
Proof.
  destruct X as [s|s| |s m e]; simpl; intros H; try congruence.
  - destruct s; reflexivity.
  - destruct s; rewrite Z.compare_refl, Pos.compare_cont_refl; reflexivity.
Qed.

(** *** Classes *)

Lemma is_nan_true (x : float) : is_nan x = true <-> Prim2SF x = S754_nan.
Proof.
  unfold is_nan. rewrite eqb_spec. unfold SFeqb.
  destruct (Prim2SF x) as [s|s| |s m e] eqn:E.
  all: try (rewrite SFcompare_refl by discriminate; simpl; split; discriminate).
  simpl. split; reflexivity.
Qed.

Lemma is_nan_false (x : float) : is_nan x = false <-> Prim2SF x <> S754_nan.
Proof.
  rewrite <- is_nan_true. destruct (is_nan x); split; congruence.
Qed.

Lemma is_infinity_true (x : float) :
  is_infinity x = true <-> exists s, Prim2SF x = S754_infinity s.
Proof.
  unfold is_infinity. rewrite eqb_spec, abs_spec, Prim2SF_infinity. unfold SFeqb.
  destruct (Prim2SF x) as [s|s| |s m e]; simpl; split; intros H;
    try discriminate; try (destruct H; discriminate); eauto.
Qed.

Lemma eqb_zero_true (x : float) :
  (x =? 0) = true <-> exists s, Prim2SF x = S754_zero s.
Proof.
  rewrite eqb_spec, Prim2SF_zero. unfold SFeqb.
  destruct (Prim2SF x) as [s|s| |s m e]; simpl; split; intros H;
    try discriminate; try (destruct H; discriminate); eauto.
  - destruct s; discriminate.
  - destruct s; discriminate.
Qed.

(** A finite float is a zero or a number [(-1)^s * m * 2^e]. *)
Lemma is_finite_true (x : float) :
  is_finite x = true ->
  (exists s, Prim2SF x = S754_zero s) \/ (exists s m e, Prim2SF x = S754_finite s m e).
Proof.
  unfold is_finite. intros H. apply negb_true_iff, orb_false_iff in H.
  destruct H as [Hn Hi]. apply is_nan_false in Hn.
  destruct (Prim2SF x) as [s|s| |s m e] eqn:E; eauto.
  - assert (is_infinity x = true) by (apply is_infinity_true; eauto). congruence.
  - congruence.
Qed.

(** *** Signs *)

(** The sign bit is clear, or the value is NaN. *)
Definition sign_clear (X : spec_float) : Prop :=
  match X with
  | S754_nan => True
  | S754_zero s | S754_infinity s | S754_finite s _ _ => s = false
  end.

Definition nonneg (x : float) : Prop := sign_clear (Prim2SF x).

Lemma binary_round_aux_sign mx ex lx :
  sign_clear (binary_round_aux prec emax false mx ex lx).
Proof.
  unfold binary_round_aux.
  destruct (shr_fexp prec emax mx ex lx) as [mrs' e'].
  destruct (shr_fexp prec emax _ e' loc_Exact) as [mrs'' e''].
  destruct (shr_m mrs''); simpl; auto.
  destruct (Z.leb _ _); simpl; auto.
Qed.

Lemma binary_round_sign m e : sign_clear (binary_round prec emax false m e).
Proof.
  unfold binary_round. destruct (shl_align _ _ _). apply binary_round_aux_sign.
Qed.

Lemma binary_normalize_sign z e :
  (0 <= z)%Z -> sign_clear (binary_normalize prec emax z e false).
Proof.
  destruct z; simpl; intros; auto; try lia.
  apply binary_round_sign.
Qed.

Lemma SFadd_sign X Y : sign_clear X -> sign_clear Y -> sign_clear (SF64add X Y).
Proof.
  destruct X as [sx|sx| |sx mx ex], Y as [sy|sy| |sy my ey];
    simpl; intros HX HY; subst; simpl; auto.
  apply binary_round_sign.
Qed.

Lemma SFdiv_sign X Y : sign_clear X -> sign_clear Y -> sign_clear (SF64div X Y).
Proof.
  destruct X as [sx|sx| |sx mx ex], Y as [sy|sy| |sy my ey];
    simpl; intros HX HY; subst; simpl; auto.
  destruct (SFdiv_core_binary _ _ _ _ _ _) as [[mz ez] lz].
  apply binary_round_aux_sign.
Qed.

Lemma SFsqrt_sign X : sign_clear X -> sign_clear (SF64sqrt X).
Proof.
  destruct X as [sx|sx| |sx mx ex]; simpl; intros HX; subst; simpl; auto.
  destruct (SFsqrt_core_binary _ _ _ _) as [[mz ez] lz].
  apply binary_round_aux_sign.
Qed.

Lemma SFmul_self_sign X : sign_clear (SF64mul X X).
Proof.
  destruct X as [sx|sx| |sx mx ex]; simpl; auto.
  - destruct sx; reflexivity.
  - destruct sx; reflexivity.
  - destruct sx; simpl; apply binary_round_aux_sign.
Qed.

Lemma nonneg_zero : nonneg 0.
Proof. reflexivity. Qed.

Lemma nonneg_add x y : nonneg x -> nonneg y -> nonneg (x + y).
Proof. unfold nonneg. rewrite add_spec. apply SFadd_sign. Qed.

Lemma nonneg_div x y : nonneg x -> nonneg y -> nonneg (x / y).
Proof. unfold nonneg. rewrite div_spec. apply SFdiv_sign. Qed.

Lemma nonneg_sqrt x : nonneg x -> nonneg (sqrt x).
Proof. unfold nonneg. rewrite sqrt_spec. apply SFsqrt_sign. Qed.

Lemma nonneg_square x : nonneg (x * x).
Proof. unfold nonneg. rewrite mul_spec. apply SFmul_self_sign. Qed.

Lemma nonneg_of_nat n : nonneg (PyFloat.of_nat n).
Proof.
  unfold nonneg, PyFloat.of_nat. rewrite of_uint63_spec.
  apply binary_normalize_sign. apply Uint63.to_Z_bounded.
Qed.

Lemma nonneg_ltb_zero x : nonneg x -> (x <? 0) = false.
Proof.
  unfold nonneg. rewrite ltb_spec, Prim2SF_zero. unfold SFltb.
  destruct (Prim2SF x) as [s|s| |s m e]; simpl; intros H; subst; reflexivity.
Qed.

Lemma nonneg_sum (xs : list float) :
  Forall nonneg xs -> nonneg (PyFloat.sum xs).
Proof.
  unfold PyFloat.sum. generalize nonneg_zero. generalize 0.
  induction xs as [|x xs IH]; simpl; intros acc Hacc Hxs; auto.
  inversion Hxs; subst. apply IH; auto using nonneg_add.
Qed.

(** *** Squares *)

Lemma abs_mul_abs (x : float) : abs x * abs x = x * x.
Proof.
  apply Prim2SF_inj. rewrite !mul_spec, abs_spec.
  destruct (Prim2SF x) as [s|s| |s m e]; simpl; try reflexivity.
  all: destruct s; reflexivity.
Qed.


(** *** Not a number *)

Lemma shr_1_nonneg (mrs : shr_record) :
  (0 <= shr_m mrs)%Z -> (0 <= shr_m (shr_1 mrs))%Z.
Proof.
  destruct mrs as [m r s]. simpl.
  destruct m as [|p|p]; simpl; try lia; destruct p; simpl; lia.
Qed.

Lemma iter_shr_1_nonneg (p : positive) (mrs : shr_record) :
  (0 <= shr_m mrs)%Z -> (0 <= shr_m (iter_pos shr_1 p mrs))%Z.
Proof.
  revert mrs. induction p as [p IH|p IH|]; simpl; intros mrs H.
  - apply IH, IH, shr_1_nonneg, H.
  - apply IH, IH, H.
  - apply shr_1_nonneg, H.
Qed.

Lemma shr_fexp_nonneg (m e : Z) (l : location) :
  (0 <= m)%Z -> (0 <= shr_m (fst (shr_fexp prec emax m e l)))%Z.
Proof.
  intros H. unfold shr_fexp, shr.
  assert (H0 : (0 <= shr_m (shr_record_of_loc m l))%Z).
  { destruct l as [|[ | | ]]; simpl; assumption. }
  destruct (fexp prec emax (Zdigits2 m + e) - e)%Z; simpl; auto.
  apply iter_shr_1_nonneg, H0.
Qed.

Lemma round_nearest_even_nonneg (m : Z) (l : location) :
  (0 <= m)%Z -> (0 <= round_nearest_even m l)%Z.
Proof.
  intros H. destruct l as [|[ | | ]]; simpl; try lia.
  destruct (Z.even m); lia.
Qed.

(** Rounding a non-negative mantissa never gives NaN. *)
Lemma binary_round_aux_not_nan (s : bool) (m e : Z) (l : location) :
  (0 <= m)%Z -> binary_round_aux prec emax s m e l <> S754_nan.
Proof.
  intros H. unfold binary_round_aux.
  pose proof (shr_fexp_nonneg m e l H) as H1.
  destruct (shr_fexp prec emax m e l) as [mrs' e']. simpl in H1.
  pose proof (shr_fexp_nonneg _ e' loc_Exact
                (round_nearest_even_nonneg _ (loc_of_shr_record mrs') H1)) as H2.
  destruct (shr_fexp prec emax _ e' loc_Exact) as [mrs'' e'']. simpl in H2.
  destruct (shr_m mrs''); try discriminate; try lia.
  destruct (Z.leb _ _); discriminate.
Qed.

Lemma SFdiv_core_nonneg (m1 : positive) (e1 : Z) (m2 : positive) (e2 : Z) :
  (0 <= fst (fst (SFdiv_core_binary prec emax (Zpos m1) e1 (Zpos m2) e2)))%Z.
Proof.
  unfold SFdiv_core_binary.
  set (s := (e1 - e2 - _)%Z).
  set (m' := match s with Zpos _ => Z.shiftl (Zpos m1) s | Z0 => Zpos m1 | Zneg _ => 0%Z end).
  assert (Hm : (0 <= m')%Z).
  { subst m'. destruct s; try lia. apply Z.shiftl_nonneg. lia. }
  pose proof (Z.div_pos m' (Zpos m2) Hm ltac:(lia)) as Hq.
  unfold Z.div in Hq.
  destruct (Z.div_eucl m' (Zpos m2)) as [q r]. simpl in *. exact Hq.
Qed.

(** A finite number divided by a finite number other than zero is a number. *)
Lemma div_not_nan (x y : float) :
  is_finite x = true -> is_finite y = true -> (y =? 0) = false ->
  is_nan (x / y) = false.
Proof.
  intros Hx Hy Hnz. apply is_nan_false. rewrite div_spec.
  destruct (is_finite_true y Hy) as [[sy Hsy]|[sy [my [ey Hsy]]]].
  - assert ((y =? 0) = true) by (apply eqb_zero_true; eauto). congruence.
  - rewrite Hsy.
    destruct (is_finite_true x Hx) as [[sx Hsx]|[sx [mx [ex Hsx]]]]; rewrite Hsx.
    + discriminate.
    + unfold SF64div, SFdiv.
      pose proof (SFdiv_core_nonneg mx ex my ey) as Hq.
      destruct (SFdiv_core_binary prec emax (Zpos mx) ex (Zpos my) ey) as [[mz ez] lz].
      simpl in Hq. apply binary_round_aux_not_nan. exact Hq.
Qed.

(** *** Order *)

Lemma SFcompare_antisym (X Y : spec_float) :
  SFcompare Y X = option_map CompOpp (SFcompare X Y).
Proof.
  destruct X as [sx|sx| |sx mx ex], Y as [sy|sy| |sy my ey]; simpl;
    try reflexivity; try (destruct sx; reflexivity); try (destruct sy; reflexivity);
    try (destruct sx, sy; reflexivity).
  destruct sx, sy; simpl; try reflexivity.
  - rewrite (Z.compare_antisym ex ey).
    destruct (ex ?= ey)%Z; simpl; try reflexivity.
    change (Pos.compare_cont Eq my mx) with (Pos.compare my mx).
    change (Pos.compare_cont Eq mx my) with (Pos.compare mx my).
    rewrite (Pos.compare_antisym mx my). reflexivity.
  - rewrite (Z.compare_antisym ex ey).
    destruct (ex ?= ey)%Z; simpl; try reflexivity.
    change (Pos.compare_cont Eq my mx) with (Pos.compare my mx).
    change (Pos.compare_cont Eq mx my) with (Pos.compare mx my).
    rewrite (Pos.compare_antisym mx my). reflexivity.
Qed.

Lemma SFcompare_some (X Y : spec_float) :
  X <> S754_nan -> Y <> S754_nan -> exists c, SFcompare X Y = Some c.
Proof.
  destruct X as [sx|sx| |sx mx ex], Y as [sy|sy| |sy my ey]; simpl; intros; eauto; congruence.
Qed.

(** On numbers, [not (x < y)] is [y <= x]. *)
Lemma ltb_false_leb (x y : float) :
  is_nan x = false -> is_nan y = false -> (x <? y) = false -> (y <=? x) = true.
Proof.
  rewrite ltb_spec, leb_spec. intros Hx%is_nan_false Hy%is_nan_false.
  unfold SFltb, SFleb. rewrite (SFcompare_antisym (Prim2SF x) (Prim2SF y)).
  destruct (SFcompare_some _ _ Hx Hy) as [c ->]. destruct c; simpl; congruence.
Qed.

Lemma leb_ltb_false (x y : float) : (x <=? y) = true -> (y <? x) = false.
Proof.
  rewrite ltb_spec, leb_spec. unfold SFltb, SFleb.
  rewrite (SFcompare_antisym (Prim2SF x) (Prim2SF y)).
  destruct (SFcompare (Prim2SF x) (Prim2SF y)) as [[ | | ]|]; simpl; congruence.
Qed.

Lemma ltb_leb (x y : float) : (x <? y) = true -> (x <=? y) = true.
Proof.
  rewrite ltb_spec, leb_spec. unfold SFltb, SFleb.
  destruct (SFcompare (Prim2SF x) (Prim2SF y)) as [[ | | ]|]; simpl; congruence.
Qed.

Lemma leb_not_nan (x y : float) :
  (x <=? y) = true -> is_nan x = false /\ is_nan y = false.
Proof.
  rewrite leb_spec, !is_nan_false. unfold SFleb.
  destruct (Prim2SF x) as [sx|sx| |sx mx ex], (Prim2SF y) as [sy|sy| |sy my ey];
    simpl; intros H; split; congruence.
Qed.

Lemma leb_refl (x : float) : is_nan x = false -> (x <=? x) = true.
Proof.
  rewrite leb_spec. intros H%is_nan_false. unfold SFleb.
  rewrite SFcompare_refl by assumption. reflexivity.
Qed.

Lemma SFleb_trans (X Y Z : spec_float) :
  SFleb X Y = true -> SFleb Y Z = true -> SFleb X Z = true.
Proof.
  unfold SFleb.
  destruct X as [sx|sx| |sx mx ex], Y as [sy|sy| |sy my ey], Z as [sz|sz| |sz mz ez];
    simpl; try discriminate; try reflexivity;
    try (destruct sx; simpl; try discriminate; try reflexivity);
    try (destruct sy; simpl; try discriminate; try reflexivity);
    try (destruct sz; simpl; try discriminate; try reflexivity).
  all: change (Pos.compare_cont Eq) with Pos.compare.
  all: destruct (Z.compare_spec ex ey), (Z.compare_spec ey ez), (Z.compare_spec ex ez);
    simpl; try discriminate; try reflexivity; try (intros; exfalso; lia).
  all: destruct (Pos.compare_spec mx my), (Pos.compare_spec my mz), (Pos.compare_spec mx mz);
    simpl; try discriminate; try reflexivity; try (intros; exfalso; lia).
Qed.

Lemma leb_trans (x y z : float) :
  (x <=? y) = true -> (y <=? z) = true -> (x <=? z) = true.
Proof. rewrite !leb_spec. apply SFleb_trans. Qed.

(** Negation reverses the order. *)
Lemma SFcompare_opp (X Y : spec_float) :
  SFcompare (SFopp X) (SFopp Y) = SFcompare Y X.
Proof.
  rewrite (SFcompare_antisym X Y).
  destruct X as [sx|sx| |sx mx ex], Y as [sy|sy| |sy my ey]; simpl;
    try reflexivity; try (destruct sx; reflexivity); try (destruct sy; reflexivity);
    try (destruct sx, sy; reflexivity).
  destruct sx, sy; simpl; try reflexivity.
  all: destruct (ex ?= ey)%Z; simpl; try reflexivity.
  all: rewrite ?CompOpp_involutive; reflexivity.
Qed.

Lemma ltb_opp (x y : float) : (- x <? - y) = (y <? x).
Proof. rewrite !ltb_spec, !opp_spec. unfold SFltb. rewrite SFcompare_opp. reflexivity. Qed.

(** *** Zero *)

(** [x - x] is [+0.0] for every finite [x]. *)
Lemma sub_self (x : float) : is_finite x = true -> x - x = 0.
Proof.
  intros H. apply Prim2SF_inj. rewrite sub_spec, Prim2SF_zero.
  destruct (is_finite_true x H) as [[s Hs]|[s [m [e Hs]]]]; rewrite Hs.
  - destruct s; reflexivity.
  - unfold SF64sub, SFsub. rewrite Z.sub_diag. reflexivity.
Qed.

(** A quotient by [y] that is finite shows that [0 / y] is [+0.0], when the
    sign of [y] is clear. *)
Lemma zero_div (x y : float) :
  is_finite (x / y) = true -> nonneg y -> 0 / y = 0.
Proof.
  intros Hf Hy. apply Prim2SF_inj. unfold nonneg in Hy.
  pose proof (is_finite_true _ Hf) as Hq. rewrite div_spec in Hq.
  rewrite div_spec, Prim2SF_zero.
  destruct (Prim2SF y) as [sy|sy| |sy my ey]; simpl in Hy; subst; try reflexivity.
  - exfalso. destruct (Prim2SF x) as [sx|sx| |sx mx ex]; simpl in Hq;
      destruct Hq as [[s Hs]|[s [m [e Hs]]]]; discriminate.
  - exfalso. destruct (Prim2SF x) as [sx|sx| |sx mx ex]; simpl in Hq;
      destruct Hq as [[s Hs]|[s [m [e Hs]]]]; discriminate.
Qed.

(** [0 / v] is [+0.0] for a finite [v] above zero. *)
Lemma zero_div_pos (v : float) :
  is_finite v = true -> (0 <=? v) = true -> (v =? 0) = false -> 0 / v = 0.
Proof.
  intros Hf Hle Hnz. apply Prim2SF_inj. rewrite div_spec, Prim2SF_zero.
  rewrite leb_spec, Prim2SF_zero in Hle.
  destruct (is_finite_true v Hf) as [[s Hs]|[s [m [e Hs]]]].
  - assert ((v =? 0) = true) by (apply eqb_zero_true; eauto). congruence.
  - rewrite Hs in *. destruct s; [discriminate|reflexivity].
Qed.

(** *** Absolute values *)

Lemma abs_abs (x : float) : abs (abs x) = abs x.
Proof.
  apply Prim2SF_inj. rewrite !abs_spec. destruct (Prim2SF x); reflexivity.
Qed.

Lemma nonneg_abs (x : float) : abs x = x -> nonneg x.
Proof.
  intros H. unfold nonneg. rewrite <- H, abs_spec.
  destruct (Prim2SF x); simpl; auto.
Qed.

Lemma abs_nonneg (x : float) : nonneg x -> abs x = x.
Proof.
  unfold nonneg. intros H. apply Prim2SF_inj. rewrite abs_spec.
  destruct (Prim2SF x); simpl in *; subst; reflexivity.
Qed.

Lemma is_finite_abs (x : float) :
  is_nan x = false -> is_infinity x = false -> is_finite (abs x) = true.
Proof.
  intros Hn Hi. unfold is_finite. apply negb_true_iff, orb_false_iff. split.
  - apply is_nan_false. rewrite abs_spec. apply is_nan_false in Hn.
    destruct (Prim2SF x); simpl; congruence.
  - destruct (is_infinity (abs x)) eqn:E; [|reflexivity].
    apply is_infinity_true in E. destruct E as [s Hs]. rewrite abs_spec in Hs.
    assert (H : is_infinity x = true).
    { apply is_infinity_true. destruct (Prim2SF x); simpl in Hs; try discriminate. eauto. }
    congruence.
Qed.

Lemma eqb_leb (x y : float) : (x =? y) = true -> (x <=? y) = true.
Proof.
  rewrite eqb_spec, leb_spec. unfold SFeqb, SFleb.
  destruct (SFcompare (Prim2SF x) (Prim2SF y)) as [[| |]|]; congruence.
Qed.

Lemma eqb_geb (x y : float) : (x =? y) = true -> (y <=? x) = true.
Proof.
  rewrite eqb_spec, leb_spec. unfold SFeqb, SFleb.
  rewrite (SFcompare_antisym (Prim2SF x) (Prim2SF y)).
  destruct (SFcompare (Prim2SF x) (Prim2SF y)) as [[| |]|]; simpl; congruence.
Qed.

End FloatFacts.

(** * Instances

    The library whose [pow] returns the nearest float, and the file system
    that lists the files in the order in which they were written.  The
    examples are run on them. *)

Definition exact_pow : Libm :=
  {| pow_2 := fun x => (x * x)%float;
     pow_2_accurate := fun x _ => or_introl eq_refl;
     pow_2_sign := fun x _ => FloatFacts.abs_nonneg _ (FloatFacts.nonneg_square x);
     pow_2_overflow := fun x _ => eq_refl;
     pow_2_whole := fun n _ => eq_refl |}.

Definition bundle_order : Filesystem :=
  {| glob := fun dir => dir;
     glob_perm := fun dir => Permutation_refl dir |}.

(** * [stats] against the formulas *)

Section StatsFormulas.
Context {L : Libm}.
Import FloatFacts.
Local Open Scope float_scope.

Lemma div_len_ok (x : float) (n : nat) :
  n <> O -> PyFloat.div_len x n = Ok (x / PyFloat.of_nat n).
Proof. destruct n; [congruence|reflexivity]. Qed.

Lemma nonneg_pow_square (x : float) : nonneg (PyFloat.square x).
Proof.
  unfold PyFloat.square. destruct (is_nan x) eqn:Hn.
  - unfold nonneg. apply is_nan_true in Hn. rewrite Hn. exact I.
  - destruct (is_infinity x) eqn:Hi; [apply nonneg_abs, abs_abs|].
    destruct (x =? 0); [apply nonneg_zero|].
    apply nonneg_abs, pow_2_sign, is_finite_abs; assumption.
Qed.

(** [x ** 2] is the square, unless the square of a finite [x] overflows. *)
Lemma pow2_square (x : float) :
  PyFloat.pow2 x
  = if square_overflows x then Raise OverflowError else Ok (PyFloat.square x).
Proof.
  unfold PyFloat.pow2, PyFloat.square, square_overflows, is_finite.
  destruct (is_nan x) eqn:Hn; simpl; [reflexivity|].
  destruct (is_infinity x) eqn:Hi; simpl; [reflexivity|].
  destruct (x =? 0) eqn:Hz.
  - apply eqb_zero_true in Hz. destruct Hz as [s Hs].
    assert (Hx : x * x = 0).
    { apply Prim2SF_inj. rewrite mul_spec, Hs. destruct s; reflexivity. }
    rewrite Hx. reflexivity.
  - rewrite (pow_2_overflow (abs x)) by (apply is_finite_abs; assumption).
    rewrite abs_mul_abs. reflexivity.
Qed.

Lemma rmap_pow2 (a : float) (values : list float) :
  rmap (fun v => PyFloat.pow2 (v - a)) values =
  if forallb (fun v => negb (square_overflows (v - a))) values
  then Ok (map (fun v => PyFloat.square (v - a)) values)
  else Raise OverflowError.
Proof.
  induction values as [|v values IH]; simpl; [reflexivity|].
  rewrite pow2_square. destruct (square_overflows (v - a)); simpl; [reflexivity|].
  rewrite IH. destruct (forallb _ values); reflexivity.
Qed.

Lemma nonneg_squares (a : float) (values : list float) :
  Forall nonneg (map (fun v => PyFloat.square (v - a)) values).
Proof.
  apply Forall_forall. intros x Hx. apply in_map_iff in Hx.
  destruct Hx as [v [<- _]]. apply nonneg_pow_square.
Qed.

(** The variance is never negative, so [math.sqrt] never raises on it. *)
Lemma nonneg_spec_variance (values : list float) : nonneg (spec_variance values).
Proof.
  unfold spec_variance. apply nonneg_div; [|apply nonneg_of_nat].
  apply nonneg_sum, nonneg_squares.
Qed.

Lemma guarded_ratio (x a : float) :
  (if PyFloat.nonzero a then PyFloat.truediv x a else Ok nan) = Ok (spec_ratio x a).
Proof.
  unfold PyFloat.nonzero, PyFloat.truediv, spec_ratio.
  destruct (a =? 0); reflexivity.
Qed.

(** What [stats] does on a non-empty list: it raises [OverflowError] when a
    squared deviation overflows and returns the summary of the formulas
    otherwise. *)
Lemma stats_eq (values : list float) :
  values <> [] ->
  stats values =
  if deviations_in_range values then Ok (spec_summary values) else Raise OverflowError.
Proof.
  intros Hne. unfold stats.
  assert (Hlen : List.length values <> O) by (destruct values; simpl; congruence).
  rewrite !div_len_ok by assumption. cbn [rbind].
  fold (spec_average values).
  rewrite rmap_pow2. fold (deviations_in_range values).
  destruct (deviations_in_range values); [|reflexivity]. cbn [rbind].
  fold (spec_squared_deviations values).
  rewrite div_len_ok by assumption. cbn [rbind].
  fold (spec_variance values).
  unfold PyFloat.math_sqrt. rewrite (nonneg_ltb_zero _ (nonneg_spec_variance values)).
  cbn [rbind]. fold (spec_std values).
  rewrite !guarded_ratio. cbn [rbind].
  destruct values as [|v rest]; [congruence|].
  cbn [PyFloat.max PyFloat.min rbind].
  rewrite guarded_ratio. reflexivity.
Qed.

Lemma length_two_nonempty {A} (l : list A) : (2 <= List.length l)%nat -> l <> [].
Proof. destruct l; simpl; [lia|congruence]. Qed.

(** [max] and [min] on numbers: an item of the list that no item exceeds,
    and one that exceeds no item. *)
Lemma max_from_greatest (xs : list float) (x : float) :
  is_nan x = false -> Forall (fun v => is_nan v = false) xs ->
  In (PyFloat.max_from x xs) (x :: xs)
  /\ Forall (fun v => (v <=? PyFloat.max_from x xs) = true) (x :: xs).
Proof.
  unfold PyFloat.max_from. revert x.
  induction xs as [|y xs IH]; intros x Hx Hxs; cbn [fold_left].
  - split; [left; reflexivity|]. repeat constructor. apply leb_refl, Hx.
  - inversion Hxs as [|? ? Hy Hxs']; subst.
    assert (Hm : is_nan (if x <? y then y else x) = false)
      by (destruct (x <? y); assumption).
    destruct (IH _ Hm Hxs') as [Hin Hall].
    inversion Hall as [|? ? Hhead Htail]; subst.
    split.
    + destruct Hin as [Hin|Hin]; [|right; right; exact Hin].
      destruct (x <? y); [right; left|left]; exact Hin.
    + destruct (x <? y) eqn:Hlt.
      * constructor; [|constructor; assumption].
        eapply leb_trans; [apply ltb_leb, Hlt|exact Hhead].
      * constructor; [exact Hhead|]. constructor; [|exact Htail].
        eapply leb_trans; [apply ltb_false_leb; eassumption|exact Hhead].
Qed.

Lemma min_from_least (xs : list float) (x : float) :
  is_nan x = false -> Forall (fun v => is_nan v = false) xs ->
  In (PyFloat.min_from x xs) (x :: xs)
  /\ Forall (fun v => (PyFloat.min_from x xs <=? v) = true) (x :: xs).
Proof.
  unfold PyFloat.min_from. revert x.
  induction xs as [|y xs IH]; intros x Hx Hxs; cbn [fold_left].
  - split; [left; reflexivity|]. repeat constructor. apply leb_refl, Hx.
  - inversion Hxs as [|? ? Hy Hxs']; subst.
    assert (Hm : is_nan (if y <? x then y else x) = false)
      by (destruct (y <? x); assumption).
    destruct (IH _ Hm Hxs') as [Hin Hall].
    inversion Hall as [|? ? Hhead Htail]; subst.
    split.
    + destruct Hin as [Hin|Hin]; [|right; right; exact Hin].
      destruct (y <? x); [right; left|left]; exact Hin.
    + destruct (y <? x) eqn:Hlt.
      * constructor; [|constructor; assumption].
        eapply leb_trans; [exact Hhead|apply ltb_leb, Hlt].
      * constructor; [exact Hhead|]. constructor; [|exact Htail].
        eapply leb_trans; [exact Hhead|apply ltb_false_leb; eassumption].
Qed.

(** The squared deviations of 10, 20, 30 are whole numbers. *)
Lemma squared_deviations_10_20_30 :
  spec_squared_deviations [10; 20; 30] = [100; 0; 100].
Proof.
  assert (Hp : pow_2 10 = 100).
  { change (pow_2 (of_uint63 (Uint63.of_Z 10)) = 100).
    rewrite pow_2_whole by lia. vm_compute. reflexivity. }
  unfold spec_squared_deviations.
  replace (spec_average [10; 20; 30]) with 20 by (vm_compute; reflexivity).
  cbn [map].
  change (PyFloat.square (10 - 20)) with (pow_2 10).
  change (PyFloat.square (20 - 20)) with 0.
  change (PyFloat.square (30 - 20)) with (pow_2 10).
  rewrite Hp. reflexivity.
Qed.

(** C1, amended.  For every list of at least two values whose squared
    deviations stay within the range of a float, [stats] returns the summary
    of: average = sum / n; standard deviation = square root of the sum of the
    squared deviations from the average divided by n (population variance,
    not n - 1); range = max - min, the difference of an item that no item
    exceeds and an item that exceeds none when the items are numbers.  When a
    squared deviation is out of range, [**] raises and [stats] returns
    nothing.  For the values 10, 20, 30 the average is 20, the standard
    deviation is about 8.165 and the range is 20. *)
Theorem stats_population_statistics :
  (forall values : list float,
      (2 <= List.length values)%nat ->
      deviations_in_range values = true ->
      stats values = Ok (spec_summary values))
  /\ (forall values : list float,
      (2 <= List.length values)%nat ->
      deviations_in_range values = false ->
      stats values = Raise OverflowError)
  /\ (forall values : list float,
      values <> [] ->
      Forall (fun v => is_nan v = false) values ->
      exists lo hi : float,
        In lo values /\ In hi values
        /\ (forall v, In v values -> (lo <=? v) = true /\ (v <=? hi) = true)
        /\ spec_range values = hi - lo)
  /\ (spec_average [10; 20; 30] = 20
      /\ (8.1645 <? spec_std [10; 20; 30]) = true
      /\ (spec_std [10; 20; 30] <? 8.1655) = true
      /\ spec_range [10; 20; 30] = 20)
  /\ stats [10; 20; 30] =
     Ok {| average := "20.000 s"; std := "8.165 s"; cv := "40.8%";
           range := "20.000 s"; range_coeff := "100.0%";
           _cv_raw := spec_std [10; 20; 30] / 20 |}.
Proof.
  split; [|split; [|split; [|split]]].
  - intros values Hlen Hrange.
    rewrite stats_eq by (apply length_two_nonempty; assumption).
    rewrite Hrange. reflexivity.
  - intros values Hlen Hrange.
    rewrite stats_eq by (apply length_two_nonempty; assumption).
    rewrite Hrange. reflexivity.
  - intros [|v rest] Hne Hnum; [congruence|].
    inversion Hnum as [|? ? Hv Hrest]; subst.
    destruct (max_from_greatest rest v Hv Hrest) as [Hhi Hmax].
    destruct (min_from_least rest v Hv Hrest) as [Hlo Hmin].
    exists (PyFloat.min_from v rest), (PyFloat.max_from v rest).
    rewrite Forall_forall in Hmax, Hmin.
    split; [exact Hlo|]. split; [exact Hhi|]. split; [|reflexivity].
    intros x Hx. split; [apply Hmin, Hx|apply Hmax, Hx].
  - unfold spec_std, spec_variance. rewrite squared_deviations_10_20_30.
    vm_compute. repeat split.
  - rewrite stats_eq by discriminate.
    replace (deviations_in_range [10; 20; 30]) with true by (vm_compute; reflexivity).
    unfold spec_summary, spec_cv, spec_range_coeff, spec_std, spec_variance.
    rewrite squared_deviations_10_20_30. vm_compute. reflexivity.
Qed.

Lemma sum_zeros (n : nat) : PyFloat.sum (repeat 0 n) = 0.
Proof.
  unfold PyFloat.sum. induction n as [|n IH]; simpl; [reflexivity|].
  replace (0 + 0) with 0 by reflexivity. exact IH.
Qed.

Lemma max_from_repeat (v : float) (n : nat) : PyFloat.max_from v (repeat v n) = v.
Proof.
  unfold PyFloat.max_from. induction n as [|n IH]; simpl; [reflexivity|].
  destruct (v <? v); exact IH.
Qed.

Lemma min_from_repeat (v : float) (n : nat) : PyFloat.min_from v (repeat v n) = v.
Proof.
  unfold PyFloat.min_from. induction n as [|n IH]; simpl; [reflexivity|].
  destruct (v <? v); exact IH.
Qed.

Lemma forallb_repeat {A} (f : A -> bool) (x : A) (n : nat) :
  f x = true -> forallb f (repeat x n) = true.
Proof. intros H. induction n; simpl; [reflexivity|]. rewrite H, IHn. reflexivity. Qed.

(** C2 (as the code has it).  For every non-empty list of copies of one finite
    value [v >= 0] whose computed average is [v] itself, the standard
    deviation and the range are zero, and the coefficient of variation is
    rendered ["0.0%"] when [v] is not zero and ["N/A"] when it is. *)
Theorem stats_equal_values (v : float) (n : nat) :
  (1 <= n)%nat ->
  is_finite v = true ->
  (0 <=? v) = true ->
  spec_average (repeat v n) = v ->
  stats (repeat v n) = Ok (equal_values_summary v).
Proof.
  intros Hn Hf Hle Havg.
  assert (Hne : repeat v n <> []) by (destruct n; simpl; [lia|congruence]).
  assert (Hdev : map (fun x => PyFloat.square (x - v)) (repeat v n) = repeat 0 n).
  { rewrite map_repeat, sub_self by assumption. reflexivity. }
  assert (Hvar : spec_variance (repeat v n) = 0).
  { unfold spec_variance, spec_squared_deviations. rewrite Havg, Hdev, sum_zeros.
    rewrite repeat_length.
    apply (zero_div (PyFloat.sum (repeat v n))); [|apply nonneg_of_nat].
    pose proof Havg as H. unfold spec_average in H. rewrite repeat_length in H.
    rewrite H. assumption. }
  assert (Hstd : spec_std (repeat v n) = 0).
  { unfold spec_std. rewrite Hvar. reflexivity. }
  assert (Hrng : spec_range (repeat v n) = 0).
  { unfold spec_range. destruct n as [|k]; [lia|]. simpl.
    rewrite max_from_repeat, min_from_repeat. apply sub_self; assumption. }
  assert (Hratio : spec_ratio 0 v = if v =? 0 then nan else 0).
  { unfold spec_ratio. destruct (v =? 0) eqn:Hz; [reflexivity|].
    apply zero_div_pos; assumption. }
  rewrite stats_eq by assumption.
  assert (Hin : deviations_in_range (repeat v n) = true).
  { unfold deviations_in_range. rewrite Havg. apply forallb_repeat.
    rewrite sub_self by assumption. reflexivity. }
  rewrite Hin. f_equal.
  unfold spec_summary, spec_cv, spec_range_coeff, equal_values_summary.
  rewrite Hstd, Hrng, Havg, Hratio.
  destruct (v =? 0); reflexivity.
Qed.

(** C2 fails as stated: two values equal to zero have the coefficient of
    variation ["N/A"], not ["0.0%"]. *)
Lemma stats_equal_zeros_not_applicable :
  exists s : summary,
    stats [0; 0] = Ok s /\ std s = "0.00 µs" /\ cv s = "N/A" /\ cv s <> "0.0%".
Proof.
  eexists. split; [vm_compute; reflexivity|]. simpl. repeat split. discriminate.
Qed.

Lemma percent_sign_not_applicable (s : string) : (s ++ "%")%string <> "N/A"%string.
Proof.
  destruct s as [|a [|b [|c [|d s]]]]; simpl; discriminate.
Qed.

(** The marker ["N/A"] stands for NaN and for nothing else. *)
Lemma percent_not_applicable (c : float) : percent c = "N/A"%string <-> is_nan c = true.
Proof.
  unfold percent. destruct (is_nan c); split; intros H; try reflexivity; try discriminate.
  exfalso. exact (percent_sign_not_applicable _ H).
Qed.

Lemma spec_ratio_nan (x a : float) :
  is_finite x = true -> is_finite a = true ->
  is_nan (spec_ratio x a) = (a =? 0).
Proof.
  intros Hx Ha. unfold spec_ratio. destruct (a =? 0) eqn:Hz; [reflexivity|].
  apply div_not_nan; assumption.
Qed.

(** C3.  For every list of at least two values (whose average, standard
    deviation and range are finite), [stats] reports the coefficient of
    variation as standard deviation / average and the range coefficient as
    range / average when the average is not zero, and reports both as ["N/A"]
    exactly when the average is exactly zero; the raw coefficient is then the
    sentinel [-1]. *)
Theorem stats_coefficients (values : list float) :
  (2 <= List.length values)%nat ->
  deviations_in_range values = true ->
  is_finite (spec_average values) = true ->
  is_finite (spec_std values) = true ->
  is_finite (spec_range values) = true ->
  exists s : summary,
    stats values = Ok s
    /\ ((spec_average values =? 0) = false ->
        cv s = (Fmt.fixed 1 (spec_std values / spec_average values * 100) ++ "%")%string
        /\ range_coeff s
           = (Fmt.fixed 1 (spec_range values / spec_average values * 100) ++ "%")%string
        /\ _cv_raw s = spec_std values / spec_average values)
    /\ ((spec_average values =? 0) = true ->
        cv s = "N/A"%string /\ range_coeff s = "N/A"%string /\ _cv_raw s = -1)
    /\ (cv s = "N/A"%string <-> (spec_average values =? 0) = true)
    /\ (range_coeff s = "N/A"%string <-> (spec_average values =? 0) = true).
Proof.
  intros Hlen Hdev Ha Hs Hr.
  exists (spec_summary values). split.
  { rewrite stats_eq by (apply length_two_nonempty; assumption). rewrite Hdev. reflexivity. }
  pose proof (spec_ratio_nan _ _ Hs Ha) as Hcv.
  pose proof (spec_ratio_nan _ _ Hr Ha) as Hrc.
  fold (spec_cv values) in Hcv. fold (spec_range_coeff values) in Hrc.
  unfold spec_summary; cbn [cv range_coeff _cv_raw].
  rewrite !percent_not_applicable, Hcv, Hrc.
  split; [|split; [|split; split; intros H; exact H]].
  - intros Hz. unfold percent. rewrite Hcv, Hrc, Hz.
    unfold spec_cv, spec_range_coeff, spec_ratio. rewrite Hz. repeat split.
  - intros Hz. rewrite Hz. repeat split.
Qed.

End StatsFormulas.

(** * Further properties of the code

    What the script prints, returns and raises, function by function: the
    passes of [analyze], the collection of the results, and [main]. *)

Section Properties.
Context {L : Libm} {F : Filesystem}.
Import FloatFacts.

(** ** Numerals *)

Lemma all_digits_app (s t : string) :
  all_digits (s ++ t) = all_digits s && all_digits t.
Proof.
  induction s as [|c s IH]; cbn [append all_digits]; [reflexivity|].
  rewrite IH, andb_assoc. reflexivity.
Qed.

Lemma string_length_app (s t : string) :
  String.length (s ++ t) = (String.length s + String.length t)%nat.
Proof. induction s as [|c s IH]; cbn [append String.length]; [reflexivity|]. rewrite IH. reflexivity. Qed.

Lemma is_digit_digit (z : Z) : (0 <= z < 10)%Z -> is_digit (Fmt.digit z) = true.
Proof.
  intros H. unfold is_digit, Fmt.digit.
  rewrite nat_ascii_embedding by lia.
  apply andb_true_iff. split; apply Nat.leb_le; lia.
Qed.

Lemma frac_digits_ok (d : nat) (z : Z) :
  all_digits (Fmt.frac_digits d z) = true /\ String.length (Fmt.frac_digits d z) = d.
Proof.
  revert z. induction d as [|d IH]; intros z; cbn [Fmt.frac_digits]; [split; reflexivity|].
  destruct (IH (z / 10)%Z) as [Hd Hl].
  rewrite all_digits_app, string_length_app, Hd, Hl.
  cbn [all_digits String.length andb].
  rewrite is_digit_digit by (apply Z.mod_pos_bound; lia).
  split; [reflexivity | lia].
Qed.

Lemma all_digits_uint (u : Decimal.uint) : all_digits (NilEmpty.string_of_uint u) = true.
Proof.
  induction u; cbn [NilEmpty.string_of_uint all_digits]; try reflexivity;
    rewrite IHu; reflexivity.
Qed.

Lemma int_digits_ok (z : Z) :
  Fmt.int_digits z <> "" /\ all_digits (Fmt.int_digits z) = true.
Proof.
  unfold Fmt.int_digits, NilZero.string_of_uint.
  destruct (N.to_uint (Z.to_N z)) as [|u|u|u|u|u|u|u|u|u|u].
  - split; [discriminate|reflexivity].
  - split; [discriminate|apply (all_digits_uint (Decimal.D0 u))].
  - split; [discriminate|apply (all_digits_uint (Decimal.D1 u))].
  - split; [discriminate|apply (all_digits_uint (Decimal.D2 u))].
  - split; [discriminate|apply (all_digits_uint (Decimal.D3 u))].
  - split; [discriminate|apply (all_digits_uint (Decimal.D4 u))].
  - split; [discriminate|apply (all_digits_uint (Decimal.D5 u))].
  - split; [discriminate|apply (all_digits_uint (Decimal.D6 u))].
  - split; [discriminate|apply (all_digits_uint (Decimal.D7 u))].
  - split; [discriminate|apply (all_digits_uint (Decimal.D8 u))].
  - split; [discriminate|apply (all_digits_uint (Decimal.D9 u))].
Qed.

Lemma decimal_fixed_point (d : nat) (q : Z) (s : bool) :
  fixed_point (S d) (Fmt.sign s ++ Fmt.decimal (S d) q).
Proof.
  unfold Fmt.decimal.
  exists (Fmt.sign s), (Fmt.int_digits (q / 10 ^ Z.of_nat (S d))),
    (Fmt.frac_digits (S d) (q mod 10 ^ Z.of_nat (S d))).
  destruct (int_digits_ok (q / 10 ^ Z.of_nat (S d))) as [Hne Hd].
  destruct (frac_digits_ok (S d) (q mod 10 ^ Z.of_nat (S d))) as [Hf Hl].
  repeat split; auto.
  destruct s; [right|left]; reflexivity.
Qed.

(** A finite float is written with exactly the decimals asked for. *)
Lemma fixed_fixed_point (d : nat) (x : float) :
  is_finite x = true -> fixed_point (S d) (Fmt.fixed (S d) x).
Proof.
  intros H. unfold Fmt.fixed.
  destruct (is_finite_true x H) as [[s Hs]|[s [m [e Hs]]]]; rewrite Hs;
    apply decimal_fixed_point.
Qed.

(** ** Printing, and the first loop of a pass *)

(** The laws of [bind]. *)
Lemma bind_ret {A B} (a : A) (k : A -> io B) : bind (ret a) k = k a.
Proof. unfold bind, ret. simpl. destruct (k a). reflexivity. Qed.

Lemma bind_lift_ok {A B} (a : A) (k : A -> io B) : bind (lift (Ok a)) k = k a.
Proof. exact (bind_ret a k). Qed.

Lemma bind_lift_raise {A B} (e : exn) (k : A -> io B) :
  bind (lift (Raise e)) k = ([], Raise e).
Proof. reflexivity. Qed.

Lemma bind_print {B} (s : string) (k : unit -> io B) :
  bind (print s) k = ((Stdout, s) :: fst (k tt), snd (k tt)).
Proof. reflexivity. Qed.

Lemma bind_eprint {B} (s : string) (k : unit -> io B) :
  bind (eprint s) k = ((Stderr, s) :: fst (k tt), snd (k tt)).
Proof. reflexivity. Qed.

Lemma bind_ok {A B} (m : io A) (k : A -> io B) (out : list line) (a : A) :
  m = (out, Ok a) -> bind m k = ((out ++ fst (k a))%list, snd (k a)).
Proof. intros ->. reflexivity. Qed.

Lemma bind_raise {A B} (m : io A) (k : A -> io B) (out : list line) (e : exn) :
  m = (out, Raise e) -> bind m k = (out, Raise e).
Proof. intros ->. reflexivity. Qed.

(** Setting a key that a dictionary does not have appends it. *)
Lemma set_fresh {V} (k : string) (v : V) (d : Dict.t V) :
  ~ In k (Dict.keys d) -> Dict.set k v d = (d ++ [(k, v)])%list.
Proof.
  induction d as [|[k' v'] d IH]; simpl; intros H; [reflexivity|].
  destruct (String.eqb_spec k k') as [->|Hne]; [tauto|].
  rewrite IH by tauto. reflexivity.
Qed.

Lemma length_values_of (key : selector) (item : string * list entry) :
  List.length (values_of key item) = List.length (snd item).
Proof. apply length_map. Qed.

Section RowsSpec.
Variable f : list float -> result summary.
Variable key : selector.

Lemma build_rows_with_step_short (bench : string) (results : list entry)
    (rest : list (string * list entry)) (rows : Dict.t summary) :
  short (bench, results) = true ->
  build_rows_with f key ((bench, results) :: rest) rows =
  (skip_line (bench, results) :: fst (build_rows_with f key rest rows),
   snd (build_rows_with f key rest rows)).
Proof.
  intros H. cbn [build_rows_with]. unfold short in H. cbn [snd] in H.
  rewrite length_map, H. reflexivity.
Qed.

Lemma build_rows_with_step_long (bench : string) (results : list entry)
    (rest : list (string * list entry)) (rows : Dict.t summary) :
  short (bench, results) = false ->
  build_rows_with f key ((bench, results) :: rest) rows =
  bind (lift (f (values_of key (bench, results))))
       (fun s => build_rows_with f key rest (Dict.set bench s rows)).
Proof.
  intros H. cbn [build_rows_with]. unfold short in H. cbn [snd] in H.
  rewrite length_map, H. reflexivity.
Qed.

Lemma build_rows_with_spec (items : list (string * list entry)) (rows0 : Dict.t summary) :
  NoDup (Dict.keys rows0 ++ Dict.keys items) ->
  match rmap (fun item => f (values_of key item)) (filter long items) with
  | Ok ss =>
      build_rows_with f key items rows0 =
      (map skip_line (filter short items),
       Ok (rows0 ++ combine (Dict.keys (filter long items)) ss)%list)
  | Raise e => snd (build_rows_with f key items rows0) = Raise e
  end.
Proof.
  revert rows0. induction items as [|[bench results] rest IH]; intros rows0 Hnd.
  - simpl. rewrite app_nil_r. reflexivity.
  - cbn [filter].
    destruct (short (bench, results)) eqn:Hs.
    + assert (Hl : long (bench, results) = false) by (unfold long; rewrite Hs; reflexivity).
      rewrite Hl.
      rewrite build_rows_with_step_short by assumption.
      assert (Hnd' : NoDup (Dict.keys rows0 ++ Dict.keys rest)).
      { unfold Dict.keys in *. cbn [map fst] in Hnd. apply NoDup_remove_1 in Hnd. exact Hnd. }
      specialize (IH rows0 Hnd').
      destruct (rmap _ (filter long rest)) as [ss|e].
      * rewrite IH. reflexivity.
      * exact IH.
    + assert (Hl : long (bench, results) = true) by (unfold long; rewrite Hs; reflexivity).
      rewrite Hl.
      rewrite build_rows_with_step_long by assumption.
      cbn [rmap rbind].
      destruct (f (values_of key (bench, results))) as [s|e] eqn:Hf; cbn [rbind].
      2:{ reflexivity. }
      rewrite bind_lift_ok.
      assert (Hfresh : ~ In bench (Dict.keys rows0)).
      { unfold Dict.keys in *. cbn [map fst] in Hnd.
        apply NoDup_remove_2 in Hnd. intros Hin. apply Hnd. apply in_or_app. tauto. }
      rewrite set_fresh by assumption.
      assert (Hnd' : NoDup (Dict.keys (rows0 ++ [(bench, s)])%list ++ Dict.keys rest)).
      { unfold Dict.keys in *. rewrite map_app. cbn [map fst] in *.
        rewrite <- app_assoc. exact Hnd. }
      specialize (IH _ Hnd').
      destruct (rmap _ (filter long rest)) as [ss|e]; cbn [rbind].
      * rewrite IH. rewrite <- app_assoc. reflexivity.
      * exact IH.
Qed.

End RowsSpec.

(** ** Rows *)

Lemma rmap_ok_forall2 {A B} (f : A -> result B) (xs : list A) (ys : list B) :
  rmap f xs = Ok ys -> Forall2 (fun x y => f x = Ok y) xs ys.
Proof.
  revert ys. induction xs as [|x xs IH]; cbn [rmap]; intros ys H.
  - injection H as <-. constructor.
  - destruct (f x) as [y|e] eqn:Hf; cbn [rbind] in H; [|discriminate].
    destruct (rmap f xs) as [ys'|e] eqn:Hr; cbn [rbind] in H; [|discriminate].
    injection H as <-. constructor; auto.
Qed.

Lemma forall2_rmap_ok {A B} (f : A -> result B) (xs : list A) :
  Forall (fun x => exists y, f x = Ok y) xs -> exists ys, rmap f xs = Ok ys.
Proof.
  induction 1 as [|x xs [y Hy] _ [ys Hys]]; cbn [rmap].
  - eauto.
  - rewrite Hy, Hys. cbn [rbind]. eauto.
Qed.

Lemma keys_combine {V W} (d : Dict.t V) (ws : list W) :
  List.length ws = List.length d ->
  Dict.keys (combine (Dict.keys d) ws) = Dict.keys d.
Proof.
  unfold Dict.keys. revert ws. induction d as [|[k v] d IH]; intros [|w ws] H;
    simpl in *; try reflexivity; try discriminate.
  rewrite IH by lia. reflexivity.
Qed.

Lemma forall2_combine {V W} (P : string * V -> string * W -> Prop)
    (d : Dict.t V) (ws : list W) (Q : string * V -> W -> Prop) :
  Forall2 Q d ws ->
  (forall k v w, Q (k, v) w -> P (k, v) (k, w)) ->
  Forall2 P d (combine (Dict.keys d) ws).
Proof.
  intros H HP. induction H as [|[k v] w d ws Hq _ IH]; simpl; constructor; auto.
Qed.

Lemma build_rows_with_all_short (f : list float -> result summary) (key : selector)
    (items : list (string * list entry)) (rows0 : Dict.t summary) :
  forallb short items = true ->
  build_rows_with f key items rows0 = (map skip_line items, Ok rows0).
Proof.
  induction items as [|[bench results] rest IH]; cbn [forallb]; intros H; [reflexivity|].
  apply andb_true_iff in H. destruct H as [Hs Hrest].
  rewrite build_rows_with_step_short, IH by assumption. reflexivity.
Qed.

(** X8.  When no benchmark has two results, [analyze] prints no table: it
    returns normally, standard output stays empty, and standard error gets
    the diagnostic of every benchmark twice, once for each pass. *)
Theorem analyze_all_skipped (by_bench : bench_groups) :
  forallb short by_bench = true ->
  analyze by_bench = ((map skip_line by_bench ++ map skip_line by_bench)%list, Ok tt)
  /\ stdout_of (printed (analyze by_bench)) = [].
Proof.
  intros H.
  assert (Hpass : forall label key,
             analyze_pass label key by_bench = (map skip_line by_bench, Ok tt)).
  { intros label key. unfold analyze_pass, build_rows.
    rewrite build_rows_with_all_short by assumption.
    unfold bind. cbn [fst snd ret]. rewrite app_nil_r. reflexivity. }
  assert (Heq : analyze by_bench
                = ((map skip_line by_bench ++ map skip_line by_bench)%list, Ok tt)).
  { unfold analyze. rewrite !Hpass. reflexivity. }
  split; [exact Heq|].
  rewrite Heq. unfold printed, stdout_of. cbn [fst].
  rewrite <- map_app. induction (by_bench ++ by_bench)%list as [|i l IH]; [reflexivity|].
  cbn [map filter skip_line fst]. exact IH.
Qed.

(** ** Sorting *)

Section SortingFacts.
Local Open Scope float_scope.

Lemma ltb_irrefl (x : float) : (x <? x) = false.
Proof.
  rewrite ltb_spec. unfold SFltb.
  destruct (Prim2SF x) as [s|s| |s m e] eqn:E; try reflexivity.
  all: rewrite SFcompare_refl by discriminate; reflexivity.
Qed.

Lemma leb_opp (x y : float) : (- x <=? - y) = (y <=? x).
Proof. rewrite !leb_spec, !opp_spec. unfold SFleb. rewrite SFcompare_opp. reflexivity. Qed.

Lemma is_nan_opp (x : float) : is_nan (- x) = is_nan x.
Proof.
  destruct (is_nan x) eqn:H.
  - apply is_nan_true. rewrite opp_spec. apply is_nan_true in H. rewrite H. reflexivity.
  - apply is_nan_false. rewrite opp_spec. apply is_nan_false in H.
    destruct (Prim2SF x); simpl; congruence.
Qed.

Section Sorting.
Context {A : Type}.
Variable key : A -> float.

Lemma insert_by_perm (x : A) (l : list A) : Permutation (x :: l) (insert_by key x l).
Proof.
  induction l as [|y l IH]; cbn [insert_by]; [reflexivity|].
  destruct (key y <? key x); [|reflexivity].
  rewrite perm_swap. constructor. exact IH.
Qed.

Lemma sorted_perm (l : list A) : Permutation l (sorted key l).
Proof.
  induction l as [|x l IH]; cbn [sorted fold_right]; [constructor|].
  fold (sorted key l). rewrite <- insert_by_perm. constructor. exact IH.
Qed.

Lemma insert_by_sorted (x : A) (l : list A) :
  is_nan (key x) = false ->
  Forall (fun y => is_nan (key y) = false) l ->
  StronglySorted (key_le key) l -> StronglySorted (key_le key) (insert_by key x l).
Proof.
  intros Hx Hl Hs. induction Hs as [|y l Hs IH Hy]; cbn [insert_by].
  - repeat constructor.
  - inversion Hl as [|? ? Hyn Hl']; subst.
    destruct (key y <? key x) eqn:Hlt.
    + constructor; [apply IH; assumption|].
      eapply Permutation_Forall; [apply insert_by_perm|].
      constructor; [apply ltb_leb; exact Hlt | exact Hy].
    + assert (Hxy : key_le key x y) by (apply ltb_false_leb; assumption).
      constructor; [constructor; assumption|].
      constructor; [exact Hxy|].
      eapply Forall_impl; [|exact Hy]. intros z Hz. unfold key_le in *.
      eapply leb_trans; eassumption.
Qed.

Lemma sorted_sorted (l : list A) :
  Forall (fun y => is_nan (key y) = false) l -> StronglySorted (key_le key) (sorted key l).
Proof.
  induction 1 as [|x l Hx Hl IH]; cbn [sorted fold_right]; [constructor|].
  fold (sorted key l). apply insert_by_sorted; auto.
  eapply Permutation_Forall; [apply sorted_perm|exact Hl].
Qed.

(** Items of one class, no two of which are strictly ordered, keep their
    order. *)
Lemma insert_by_filter (p : A -> bool) (x : A) (l : list A) :
  (forall a b, p a = true -> p b = true -> (key a <? key b) = false) ->
  filter p (insert_by key x l) = filter p (x :: l).
Proof.
  intros Hp. induction l as [|y l IH]; cbn [insert_by]; [reflexivity|].
  destruct (key y <? key x) eqn:Hlt; [|reflexivity].
  cbn [filter] in *. rewrite IH.
  destruct (p x) eqn:Hpx, (p y) eqn:Hpy; try reflexivity.
  rewrite (Hp y x Hpy Hpx) in Hlt. discriminate.
Qed.

Lemma sorted_stable (p : A -> bool) (l : list A) :
  (forall a b, p a = true -> p b = true -> (key a <? key b) = false) ->
  filter p (sorted key l) = filter p l.
Proof.
  intros Hp. induction l as [|x l IH]; cbn [sorted fold_right]; [reflexivity|].
  fold (sorted key l). rewrite insert_by_filter by assumption.
  cbn [filter]. rewrite IH. reflexivity.
Qed.

End Sorting.

End SortingFacts.

(** ** The table of a pass *)

Section PassTable.
Local Open Scope float_scope.

Lemma stats_empty : stats [] = Raise ZeroDivisionError.
Proof. reflexivity. Qed.

Lemma stats_ok_inv (values : list float) (s : summary) :
  stats values = Ok s -> values <> [] /\ s = spec_summary values.
Proof.
  intros H. destruct values as [|v rest]; [rewrite stats_empty in H; discriminate|].
  split; [discriminate|].
  rewrite stats_eq in H by discriminate.
  destruct (deviations_in_range (v :: rest)); congruence.
Qed.

Lemma stats_raw_not_nan (values : list float) (s : summary) :
  stats values = Ok s -> is_nan (_cv_raw s) = false.
Proof.
  intros H. apply stats_ok_inv in H. destruct H as [_ ->].
  unfold spec_summary; cbn [_cv_raw].
  destruct (is_nan (spec_cv values)) eqn:E; [reflexivity|exact E].
Qed.

Lemma print_rows_eq (col_w : nat) (rows : list (string * summary)) :
  print_rows col_w rows = (map (row_line col_w) rows, Ok tt).
Proof.
  induction rows as [|[bench s] rows IH]; cbn [print_rows map]; [reflexivity|].
  rewrite bind_print, IH. reflexivity.
Qed.

Lemma build_rows_inv (key : selector) (by_bench : bench_groups)
    (out : list line) (rows : Dict.t summary) :
  Dict.wf by_bench ->
  build_rows key by_bench [] = (out, Ok rows) ->
  out = map skip_line (filter short by_bench)
  /\ Dict.keys rows = Dict.keys (filter long by_bench)
  /\ Forall2 (fun item row => fst row = fst item
                              /\ stats (values_of key item) = Ok (snd row))
       (filter long by_bench) rows.
Proof.
  intros Hwf Hrun.
  pose proof (build_rows_with_spec stats key by_bench [] Hwf) as Hspec.
  fold (build_rows key by_bench []) in Hspec. cbn [app] in Hspec.
  destruct (rmap _ (filter long by_bench)) as [ss|e] eqn:Hr.
  - rewrite Hspec in Hrun. injection Hrun as <- <-.
    apply rmap_ok_forall2 in Hr.
    split; [reflexivity|]. split.
    + apply keys_combine. symmetry. eapply Forall2_length; eassumption.
    + eapply forall2_combine; [exact Hr|]. intros k v w Hq. split; [reflexivity|exact Hq].
  - rewrite Hrun in Hspec. discriminate.
Qed.

Lemma rows_not_nan (key : selector) (by_bench : bench_groups)
    (out : list line) (rows : Dict.t summary) :
  Dict.wf by_bench ->
  build_rows key by_bench [] = (out, Ok rows) ->
  Forall (fun row => is_nan (by_cv row) = false) rows.
Proof.
  intros Hwf Hrun. destruct (build_rows_inv _ _ _ _ Hwf Hrun) as [_ [_ H2]].
  clear Hrun.
  induction H2 as [|item row items rows' [_ Hs] _ IH]; [constructor|].
  constructor; [|exact IH].
  unfold by_cv. rewrite is_nan_opp. eapply stats_raw_not_nan; eassumption.
Qed.

Lemma build_rows_completes (key : selector) (by_bench : bench_groups) :
  Dict.wf by_bench ->
  (forall item, In item by_bench -> long item = true ->
                deviations_in_range (values_of key item) = true) ->
  exists rows : Dict.t summary,
    build_rows key by_bench [] = (map skip_line (filter short by_bench), Ok rows).
Proof.
  intros Hwf Hrange.
  pose proof (build_rows_with_spec stats key by_bench [] Hwf) as Hspec.
  fold (build_rows key by_bench []) in Hspec. cbn [app] in Hspec.
  destruct (forall2_rmap_ok (fun item => stats (values_of key item)) (filter long by_bench))
    as [ss Hss].
  { apply Forall_forall. intros item Hin. apply filter_In in Hin. destruct Hin as [Hin Hl].
    exists (spec_summary (values_of key item)).
    rewrite stats_eq, (Hrange item Hin Hl); [reflexivity|].
    unfold long, short in Hl. apply negb_true_iff, Nat.ltb_ge in Hl.
    unfold values_of. destruct (snd item); simpl in *; [lia|discriminate]. }
  rewrite Hss in Hspec. eauto.
Qed.

(** X6.  The first loop of a pass over a dictionary of groups.  If it
    completes, it has written one diagnostic for each benchmark with fewer
    than two results, in the order of the dictionary, and made one row for
    each of the others, in that order too, holding what [stats] returns on the
    selected values of the benchmark.  It completes when no squared deviation
    of a benchmark with two results or more is out of range. *)
Theorem build_rows_rows_and_diagnostics (key : selector) (by_bench : bench_groups) :
  Dict.wf by_bench ->
  (forall (out : list line) (rows : Dict.t summary),
      build_rows key by_bench [] = (out, Ok rows) ->
      out = map skip_line (filter short by_bench)
      /\ Dict.keys rows = Dict.keys (filter long by_bench)
      /\ Forall2 (fun item row => fst row = fst item
                                  /\ stats (values_of key item) = Ok (snd row))
           (filter long by_bench) rows)
  /\ ((forall item, In item by_bench -> long item = true ->
                    deviations_in_range (values_of key item) = true) ->
      exists rows : Dict.t summary,
        build_rows key by_bench [] = (map skip_line (filter short by_bench), Ok rows)).
Proof.
  intros Hwf. split.
  - intros out rows Hrun. exact (build_rows_inv key by_bench out rows Hwf Hrun).
  - intros Hrange. exact (build_rows_completes key by_bench Hwf Hrange).
Qed.

(** X9.  A pass that has rows prints, after the diagnostics of the first
    loop, the title, the header, a rule of dashes as long as the header and
    one line for each row.  The lines are the rows themselves, none lost and
    none added, in descending order of the raw coefficient of variation;
    rows without a coefficient, whose raw value is [-1], come last. *)
Theorem analyze_pass_table (label : string) (key : selector) (by_bench : bench_groups)
    (out : list line) (rows : Dict.t summary) :
  Dict.wf by_bench ->
  build_rows key by_bench [] = (out, Ok rows) ->
  rows <> [] ->
  let table := sorted by_cv rows in
  let col_w := column_width rows in
  analyze_pass label key by_bench =
    ((out ++ (Stdout, pass_title label by_bench)
          :: (Stdout, table_header col_w)
          :: (Stdout, PyStr.repeat "-" (PyStr.len (table_header col_w)))
          :: map (row_line col_w) table)%list, Ok tt)
  /\ Permutation rows table
  /\ StronglySorted cv_descending table.
Proof.
  intros Hwf Hrun Hne table col_w. split; [|split].
  - unfold analyze_pass. rewrite (bind_ok _ _ _ _ Hrun).
    destruct rows as [|row rows']; [congruence|].
    rewrite !bind_print, print_rows_eq. reflexivity.
  - apply sorted_perm.
  - pose proof (sorted_sorted by_cv rows (rows_not_nan _ _ _ _ Hwf Hrun)) as Hs.
    fold table in Hs. clearbody table.
    induction Hs as [|r l Hs IH Hr]; constructor; [exact IH|].
    eapply Forall_impl; [|exact Hr]. intros r' H. unfold key_le, by_cv in H.
    rewrite leb_opp in H. exact H.
Qed.

Lemma same_cv_tie (c : float) (a b : string * summary) :
  same_cv c a = true -> same_cv c b = true -> (by_cv a <? by_cv b) = false.
Proof.
  unfold same_cv, by_cv. intros Ha Hb. rewrite ltb_opp.
  apply leb_ltb_false. eapply leb_trans; [apply eqb_leb, Ha|apply eqb_geb, Hb].
Qed.

Lemma eqb_refl_not_nan (x : float) : is_nan x = false -> (x =? x) = true.
Proof. unfold is_nan. intros H. apply negb_false_iff in H. exact H. Qed.

(** X10.  The table of a pass keeps the order of the dictionary among rows
    that tie: for every number [c], the rows whose raw coefficient of
    variation equals [c] are printed in the order in which the first loop made
    them.  Every row is in the class of its own coefficient, which is never
    NaN, so this is the whole of stability; in particular all the rows
    without a coefficient, whose raw value is [-1], keep their order, and so
    do rows with the coefficients [0.0] and [-0.0]. *)
Theorem sorted_rows_stable (label : string) (key : selector) (by_bench : bench_groups)
    (out : list line) (rows : Dict.t summary) :
  Dict.wf by_bench ->
  build_rows key by_bench [] = (out, Ok rows) ->
  rows <> [] ->
  exists table : list (string * summary),
    analyze_pass label key by_bench =
      ((out ++ (Stdout, pass_title label by_bench)
            :: (Stdout, table_header (column_width rows))
            :: (Stdout, PyStr.repeat "-" (PyStr.len (table_header (column_width rows))))
            :: map (row_line (column_width rows)) table)%list, Ok tt)
    /\ (forall c : float, filter (same_cv c) table = filter (same_cv c) rows)
    /\ (forall row, In row rows -> same_cv (_cv_raw (snd row)) row = true).
Proof.
  intros Hwf Hrun Hne. exists (sorted by_cv rows). split; [|split].
  - unfold analyze_pass. rewrite (bind_ok _ _ _ _ Hrun).
    destruct rows as [|row rows']; [congruence|].
    rewrite !bind_print, print_rows_eq. reflexivity.
  - intros c. apply sorted_stable. intros a b. apply same_cv_tie.
  - intros row Hin. unfold same_cv. apply eqb_refl_not_nan.
    pose proof (rows_not_nan _ _ _ _ Hwf Hrun) as Hall.
    rewrite Forall_forall in Hall. specialize (Hall row Hin).
    unfold by_cv in Hall. rewrite is_nan_opp in Hall. exact Hall.
Qed.

End PassTable.

(** ** Errors of the analysis *)

Section AnalysisErrors.
Local Open Scope float_scope.

(** X7.  The first loop of a pass calls [stats] on lists of two values or
    more only: with any function that agrees with [stats] on such lists it
    prints and returns the same.  What [stats] does on the empty list and on a
    single value is out of the reach of [analyze]. *)
Theorem build_rows_calls_on_two_or_more (f g : list float -> result summary)
    (key : selector) (items : list (string * list entry)) (rows : Dict.t summary) :
  (forall values, (2 <= List.length values)%nat -> f values = g values) ->
  build_rows_with f key items rows = build_rows_with g key items rows.
Proof.
  intros Hfg. revert rows. induction items as [|[bench results] rest IH]; intros rows.
  - reflexivity.
  - destruct (short (bench, results)) eqn:Hs.
    + rewrite !build_rows_with_step_short, IH by assumption. reflexivity.
    + rewrite !build_rows_with_step_long by assumption.
      rewrite Hfg.
      * destruct (g (values_of key (bench, results))) as [s|e]; [|reflexivity].
        rewrite !bind_lift_ok. apply IH.
      * rewrite length_values_of. unfold short in Hs. apply Nat.ltb_ge in Hs. exact Hs.
Qed.

Lemma build_rows_snd (key : selector) (items : list (string * list entry))
    (rows0 : Dict.t summary) :
  (exists rows, snd (build_rows key items rows0) = Ok rows)
  \/ snd (build_rows key items rows0) = Raise OverflowError.
Proof.
  unfold build_rows. revert rows0.
  induction items as [|[bench results] rest IH]; intros rows0.
  - left. eexists. reflexivity.
  - destruct (short (bench, results)) eqn:Hs.
    + rewrite build_rows_with_step_short by assumption. cbn [snd]. apply IH.
    + rewrite build_rows_with_step_long by assumption.
      assert (Hne : values_of key (bench, results) <> []).
      { unfold short in Hs. apply Nat.ltb_ge in Hs. unfold values_of.
        destruct (snd (bench, results)); simpl in *; [lia|discriminate]. }
      rewrite stats_eq by assumption.
      destruct (deviations_in_range _).
      * rewrite bind_lift_ok. apply IH.
      * right. reflexivity.
Qed.

Lemma analyze_pass_snd (label : string) (key : selector) (by_bench : bench_groups) :
  snd (analyze_pass label key by_bench) = Ok tt
  \/ snd (analyze_pass label key by_bench) = Raise OverflowError.
Proof.
  unfold analyze_pass.
  destruct (build_rows key by_bench []) as [out r] eqn:Hrun.
  pose proof (build_rows_snd key by_bench []) as H. rewrite Hrun in H. cbn [snd] in H.
  destruct H as [[rows ->]| ->].
  - left. rewrite (bind_ok _ _ out rows eq_refl). cbn [snd].
    destruct rows; [reflexivity|].
    rewrite !bind_print, print_rows_eq. reflexivity.
  - right. reflexivity.
Qed.

Lemma analyze_pass_completes (label : string) (key : selector) (by_bench : bench_groups) :
  Dict.wf by_bench ->
  (forall item, In item by_bench -> long item = true ->
                deviations_in_range (values_of key item) = true) ->
  snd (analyze_pass label key by_bench) = Ok tt.
Proof.
  intros Hwf Hrange. destruct (build_rows_completes key by_bench Hwf Hrange) as [rows Hrun].
  unfold analyze_pass. rewrite (bind_ok _ _ _ _ Hrun). cbn [snd].
  destruct rows; [reflexivity|]. rewrite !bind_print, print_rows_eq. reflexivity.
Qed.

Lemma analyze_snd (by_bench : bench_groups) :
  snd (analyze by_bench) = Ok tt \/ snd (analyze by_bench) = Raise OverflowError.
Proof.
  unfold analyze.
  destruct (analyze_pass "MIN" Min by_bench) as [out1 r1] eqn:H1.
  pose proof (analyze_pass_snd "MIN" Min by_bench) as Hs1. rewrite H1 in Hs1. cbn [snd] in Hs1.
  destruct Hs1 as [-> | ->].
  - rewrite (bind_ok _ _ out1 tt eq_refl). cbn [snd]. apply analyze_pass_snd.
  - right. reflexivity.
Qed.

(** X13.  On groups of results whose [min] and [mean] are floats, [analyze]
    returns normally or raises [OverflowError], the error of a squared
    deviation out of range, and nothing else: no division by zero, since
    [stats] is called on two values or more, and no [ValueError] out of the
    square root.  It returns normally when, for both fields, no squared
    deviation of a benchmark with two results or more is out of range. *)
Theorem analyze_raises_only_overflow (by_bench : bench_groups) :
  (snd (analyze by_bench) = Ok tt \/ snd (analyze by_bench) = Raise OverflowError)
  /\ (Dict.wf by_bench ->
      (forall key item, In item by_bench -> long item = true ->
                        deviations_in_range (values_of key item) = true) ->
      snd (analyze by_bench) = Ok tt).
Proof.
  split; [exact (analyze_snd by_bench)|].
  intros Hwf Hrange. unfold analyze.
  destruct (analyze_pass "MIN" Min by_bench) as [out1 r1] eqn:H1.
  pose proof (analyze_pass_completes "MIN" Min by_bench Hwf (Hrange Min)) as Hs.
  rewrite H1 in Hs. cbn [snd] in Hs. subst r1.
  rewrite (bind_ok _ _ out1 tt eq_refl). cbn [snd].
  exact (analyze_pass_completes "MEAN" Mean by_bench Hwf (Hrange Mean)).
Qed.

(** X2.  The outcomes of [stats].  On the empty list it raises
    [ZeroDivisionError].  On any other list it returns the summary of the
    formulas when no squared deviation is out of range, and raises
    [OverflowError] when one is; the square root never raises. *)
Theorem stats_raises (values : list float) :
  match values with
  | [] => stats values = Raise ZeroDivisionError
  | _ :: _ =>
      (deviations_in_range values = true /\ stats values = Ok (spec_summary values))
      \/ (deviations_in_range values = false /\ stats values = Raise OverflowError)
  end.
Proof.
  destruct values as [|v rest]; [reflexivity|].
  rewrite stats_eq by discriminate.
  destruct (deviations_in_range (v :: rest)); [left|right]; split; reflexivity.
Qed.

(** X5.  The raw coefficient that [stats] returns is never NaN, so the rows
    can be compared.  It is [-1] when the coefficient is displayed as ["N/A"];
    otherwise it is the number whose hundredfold is displayed with one
    decimal and a percent sign. *)
Theorem stats_sort_key (values : list float) (s : summary) :
  stats values = Ok s ->
  is_nan (_cv_raw s) = false
  /\ (cv s = "N/A"%string -> _cv_raw s = -1)
  /\ (cv s <> "N/A"%string ->
      cv s = (Fmt.fixed 1 (_cv_raw s * 100) ++ "%")%string).
Proof.
  intros H. split; [eapply stats_raw_not_nan; eassumption|].
  apply stats_ok_inv in H. destruct H as [_ ->].
  unfold spec_summary; cbn [cv _cv_raw]. unfold percent.
  destruct (is_nan (spec_cv values)); split; intros H; try reflexivity.
  - congruence.
  - exfalso. exact (percent_sign_not_applicable _ H).
Qed.

Lemma ltb_not_nan (x y : float) : (x <? y) = true -> is_nan x = false /\ is_nan y = false.
Proof. intros H. apply leb_not_nan, ltb_leb, H. Qed.

(** X1.  The three cases of [format_duration], on the float [ms] that it
    computes as [seconds * 1000]: below one, microseconds with two decimals;
    from one up to a thousand, milliseconds with two decimals; and in every
    other case, NaN included, seconds with three decimals.  A finite number
    is written as an optional minus sign, digits, a point and exactly that
    many digits. *)
Theorem format_duration_units (seconds : float) :
  let ms := seconds * 1000 in
  ((ms <? 1) = true ->
   rendered (micro_sign ++ "s") 2 (ms * 1000) (format_duration seconds))
  /\ ((1 <=? ms) = true -> (ms <? 1000) = true ->
      rendered "ms" 2 ms (format_duration seconds))
  /\ ((ms <? 1) = false -> ((1 <=? ms) && (ms <? 1000))%bool = false ->
      rendered "s" 3 (ms / 1000) (format_duration seconds)).
Proof.
  intros ms. unfold format_duration. fold ms.
  split; [|split].
  - intros ->. split; [reflexivity|apply fixed_fixed_point].
  - intros H1 H2. rewrite (leb_ltb_false _ _ H1), H2.
    split; [reflexivity|apply fixed_fixed_point].
  - intros H1 H2. rewrite H1.
    destruct (ms <? 1000) eqn:H3.
    + exfalso. destruct (ltb_not_nan _ _ H3) as [Hn _].
      rewrite (ltb_false_leb ms 1 Hn eq_refl H1) in H2. discriminate.
    + split; [reflexivity|apply fixed_fixed_point].
Qed.

End AnalysisErrors.

(** ** What the collection prints and raises *)

(** What a [bind] that returned went through. *)
Lemma bind_inv_ok {A B} (m : io A) (k : A -> io B) (out : list line) (b : B) :
  bind m k = (out, Ok b) ->
  exists out1 a out2, m = (out1, Ok a) /\ k a = (out2, Ok b) /\ out = (out1 ++ out2)%list.
Proof.
  destruct m as [out1 [a|e]]; unfold bind; cbn [fst snd]; intros H; [|discriminate].
  destruct (k a) as [out2 r] eqn:Hk. cbn [fst snd] in H. injection H as <- ->.
  exists out1, a, out2. auto.
Qed.

Lemma snd_bind {A B} (m : io A) (k : A -> io B) :
  snd (bind m k) = match snd m with Ok a => snd (k a) | Raise e => Raise e end.
Proof. unfold bind. destruct (snd m); reflexivity. Qed.

Lemma fst_bind {A B} (m : io A) (k : A -> io B) :
  fst (bind m k) = match snd m with
                   | Ok a => (fst m ++ fst (k a))%list
                   | Raise _ => fst m
                   end.
Proof. unfold bind. destruct (snd m); reflexivity. Qed.

Lemma effects_bind {A B} (P : exn -> Prop) (m : io A) (k : A -> io B) :
  effects P m -> (forall a, effects P (k a)) -> effects P (bind m k).
Proof.
  intros [Hm1 Hm2] Hk. unfold effects. rewrite fst_bind, snd_bind.
  destruct (snd m) as [a|e]; [|split; assumption].
  destruct (Hk a) as [Hk1 Hk2]. split; [apply Forall_app; split; assumption|exact Hk2].
Qed.

Lemma effects_ret {A} (P : exn -> Prop) (a : A) : effects P (ret a).
Proof. split; [constructor|exact I]. Qed.

Lemma effects_print (P : exn -> Prop) (s : string) : effects P (print s).
Proof. split; [repeat constructor|exact I]. Qed.

Lemma effects_lift_answered {A} (r : answer A) : effects collect_error (lift (answered r)).
Proof.
  split; [constructor|]. destruct r as [a|h]; cbn; [exact I|]. right. eauto.
Qed.

Lemma effects_load_files (run : Z) (files : list file) (by_bench : bench_groups) :
  effects collect_error (load_files run files by_bench).
Proof.
  revert by_bench. induction files as [|f rest IH]; intros by_bench; cbn [load_files].
  - apply effects_ret.
  - apply effects_bind; [apply effects_lift_answered|]. intros data.
    apply effects_bind.
    { split; [constructor|]. destruct data; cbn; [left; reflexivity|exact I]. }
    intros result. apply effects_bind; [apply effects_print|]. intros _. apply IH.
Qed.

(** What [download_artifact] went through when it returned, and what it
    raises. *)
Lemma download_artifact_ok (gh : remote) (repo : string) (run : Z) (a : artifact)
    (tmp tmp' : tmpdir) (files : list file) :
  download_artifact gh repo run a tmp = Ok (tmp', files) ->
  exists members,
    zip gh repo (artifact_id a) = Answer members
    /\ zip_path_is_directory (artifact_name a) tmp = false
    /\ out_dir_is_file (artifact_name a) tmp = false
    /\ tmp' = Dict.set (artifact_name a)
                (extractall run members (listing (artifact_name a) tmp)) tmp
    /\ files = glob (extractall run members (listing (artifact_name a) tmp)).
Proof.
  unfold download_artifact, listing.
  destruct (zip gh repo (artifact_id a)) as [members|h].
  - destruct (zip_path_is_directory _ _); [discriminate|].
    destruct (out_dir_is_file _ _); [discriminate|].
    cbn [answered rbind]. intros H. injection H as <- <-. exists members. auto.
  - destruct h; try discriminate;
      destruct (zip_path_is_directory _ _); try discriminate;
      destruct (out_dir_is_file _ _); discriminate.
Qed.

Lemma download_artifact_raises (gh : remote) (repo : string) (run : Z) (a : artifact)
    (tmp : tmpdir) (e : exn) :
  download_artifact gh repo run a tmp = Raise e -> collect_error e.
Proof.
  unfold download_artifact, collect_error.
  destruct (zip gh repo (artifact_id a)) as [members|h].
  - destruct (zip_path_is_directory _ _); [intros H; injection H as <-; auto|].
    destruct (out_dir_is_file _ _); [intros H; injection H as <-; auto|].
    discriminate.
  - destruct h;
      try (intros H; injection H as <-; eauto 6);
      destruct (zip_path_is_directory _ _); try (intros H; injection H as <-; auto);
      destruct (out_dir_is_file _ _); intros H; injection H as <-; eauto 6.
Qed.

Lemma effects_download (gh : remote) (repo : string) (run : Z) (a : artifact) (tmp : tmpdir) :
  effects collect_error (lift (download_artifact gh repo run a tmp)).
Proof.
  split; [constructor|]. cbn [lift snd].
  destruct (download_artifact gh repo run a tmp) as [d|e] eqn:Hd; [exact I|].
  exact (download_artifact_raises _ _ _ _ _ _ Hd).
Qed.

Lemma effects_load_artifacts (gh : remote) (repo : string) (run : Z)
    (arts : list artifact) (st : tmpdir * bench_groups) :
  effects collect_error (load_artifacts gh repo run arts st).
Proof.
  revert st. induction arts as [|a rest IH]; intros st; cbn [load_artifacts].
  - apply effects_ret.
  - apply effects_bind; [apply effects_download|]. intros d.
    apply effects_bind; [apply effects_load_files|]. intros bb. apply IH.
Qed.

Lemma effects_collect_runs (gh : remote) (repo : string) (run_ids : list Z)
    (st : tmpdir * bench_groups) :
  effects collect_error (collect_runs gh repo run_ids st).
Proof.
  revert st. induction run_ids as [|run rest IH]; intros st; cbn [collect_runs].
  - apply effects_ret.
  - apply effects_bind; [apply effects_lift_answered|]. intros arts.
    destruct (filter is_perf_artifact arts) as [|a perf].
    + apply effects_bind; [apply effects_print|]. intros _. apply IH.
    + apply effects_bind; [apply effects_load_artifacts|]. intros st'. apply IH.
Qed.

Lemma effects_collect_jsons (gh : remote) (repo : string) (run_ids : list Z) :
  effects collect_error (collect_jsons gh repo run_ids).
Proof.
  unfold collect_jsons. apply effects_bind; [apply effects_collect_runs|].
  intros st. apply effects_ret.
Qed.

(** X16.  [collect_jsons] writes to standard output only, its notice of a
    run without artifact included, and it never exits by itself: whatever it
    raises, it is not [SystemExit]. *)
Theorem collect_jsons_effects (gh : remote) (repo : string) (run_ids : list Z) :
  Forall on_stdout (printed (collect_jsons gh repo run_ids))
  /\ forall c : Z, snd (collect_jsons gh repo run_ids) <> Raise (SystemExit c).
Proof.
  destruct (effects_collect_jsons gh repo run_ids) as [Hout He].
  split; [exact Hout|].
  intros c Hc. rewrite Hc in He.
  destruct He as [H|[H|[H|[h H]]]]; discriminate.
Qed.

(** ** Runs without an artifact *)

Lemma collect_runs_skip (gh : remote) (repo : string) (run : Z) (rest : list Z)
    (st : tmpdir * bench_groups) :
  has_perf_artifact gh repo run = false ->
  collect_runs gh repo (run :: rest) st =
  (no_artifact_line run :: fst (collect_runs gh repo rest st),
   snd (collect_runs gh repo rest st)).
Proof.
  unfold has_perf_artifact. intros H. cbn [collect_runs].
  destruct (artifacts gh repo run) as [arts|h]; [|discriminate].
  cbn [answered]. rewrite bind_lift_ok.
  destruct (filter is_perf_artifact arts); [|discriminate].
  rewrite bind_print. reflexivity.
Qed.

Lemma collect_runs_filter (gh : remote) (repo : string) (run_ids : list Z)
    (st : tmpdir * bench_groups) :
  snd (collect_runs gh repo run_ids st)
  = snd (collect_runs gh repo (filter (has_perf_artifact gh repo) run_ids) st).
Proof.
  revert st. induction run_ids as [|run rest IH]; intros st; [reflexivity|].
  cbn [filter]. destruct (has_perf_artifact gh repo run) eqn:Hp.
  - cbn [collect_runs]. rewrite !snd_bind.
    destruct (snd (lift (answered (artifacts gh repo run)))) as [arts|e]; [|reflexivity].
    destruct (filter is_perf_artifact arts) as [|a perf].
    + rewrite !snd_bind. cbn [print snd]. apply IH.
    + rewrite !snd_bind.
      destruct (snd (load_artifacts gh repo run (a :: perf) st)) as [st'|e];
        [apply IH|reflexivity].
  - rewrite collect_runs_skip by assumption. cbn [snd]. apply IH.
Qed.

(** X17.  Runs without a perfcompare artifact do not count: [collect_jsons]
    returns, or raises, the same as on the list of the other runs, and when
    it returns it has printed the notice of each run it skipped. *)
Theorem collect_jsons_skips_runs (gh : remote) (repo : string) (run_ids : list Z) :
  snd (collect_jsons gh repo run_ids)
  = snd (collect_jsons gh repo (filter (has_perf_artifact gh repo) run_ids))
  /\ (forall run, In run run_ids -> has_perf_artifact gh repo run = false ->
                  In (no_artifact_line run) (printed (collect_jsons gh repo run_ids))
                  \/ exists e, snd (collect_jsons gh repo run_ids) = Raise e).
Proof.
  split.
  - unfold collect_jsons. rewrite !snd_bind, <- collect_runs_filter. reflexivity.
  - intros run Hin Hp. unfold collect_jsons, printed.
    rewrite fst_bind, snd_bind.
    assert (H : forall st,
               In (no_artifact_line run) (fst (collect_runs gh repo run_ids st))
               \/ exists e, snd (collect_runs gh repo run_ids st) = Raise e).
    { induction run_ids as [|r rest IH]; intros st; [contradiction|].
      destruct (has_perf_artifact gh repo r) eqn:Hr.
      - destruct Hin as [->|Hin]; [congruence|].
        cbn [collect_runs]. rewrite !fst_bind, !snd_bind.
        destruct (snd (lift (answered (artifacts gh repo r)))) as [arts|e]; [|eauto].
        destruct (filter is_perf_artifact arts) as [|a perf].
        + rewrite fst_bind, snd_bind. cbn [print snd fst].
          destruct (IH Hin st) as [H|H]; [left|right; exact H].
          apply in_or_app. right. right. exact H.
        + rewrite fst_bind, snd_bind.
          destruct (snd (load_artifacts gh repo r (a :: perf) st)) as [st'|e]; [|eauto].
          destruct (IH Hin st') as [H|H]; [left|right; exact H].
          apply in_or_app. right. apply in_or_app. right. exact H.
      - rewrite collect_runs_skip by assumption. cbn [fst snd].
        destruct Hin as [->|Hin]; [left; left; reflexivity|].
        destruct (IH Hin st) as [H|H]; [left; right; exact H|right; exact H]. }
    destruct (H ([], [])) as [Hl|[e He]].
    + destruct (snd (collect_runs gh repo run_ids ([], []))); left; [|exact Hl].
      apply in_or_app. left. exact Hl.
    + right. rewrite He. eauto.
Qed.

Lemma collect_runs_none (gh : remote) (repo : string) (run_ids : list Z)
    (st : tmpdir * bench_groups) :
  forallb (fun run => negb (has_perf_artifact gh repo run)) run_ids = true ->
  collect_runs gh repo run_ids st = (map no_artifact_line run_ids, Ok st).
Proof.
  induction run_ids as [|run rest IH]; cbn [forallb]; intros H; [reflexivity|].
  apply andb_true_iff in H. destruct H as [Hr Hrest]. apply negb_true_iff in Hr.
  rewrite collect_runs_skip, IH by assumption. reflexivity.
Qed.

(** X20.  When the runs named on the command line have no perfcompare
    artifact, nothing is collected: the script prints the runs it uses and
    one notice for each run on standard output, then ["No results
    collected."] on standard error, and exits with status 1. *)
Theorem main_nothing_collected (gh : remote) (a : args) (r : Z) (rs : list Z) :
  workflow_run_ids a = Some (r :: rs) ->
  forallb (fun run => negb (has_perf_artifact gh (repo a) run)) (r :: rs) = true ->
  collect_jsons gh (repo a) (r :: rs) = (map no_artifact_line (r :: rs), Ok [])
  /\ main gh a =
     ((using_line (r :: rs) :: map no_artifact_line (r :: rs)
       ++ [(Stderr, "No results collected.")])%list, Raise (SystemExit 1))
  /\ exit_status (main gh a) = 1%Z.
Proof.
  intros Hids Hnone.
  assert (Hc : collect_jsons gh (repo a) (r :: rs) = (map no_artifact_line (r :: rs), Ok [])).
  { unfold collect_jsons. rewrite collect_runs_none by assumption.
    unfold bind. cbn [fst snd ret]. rewrite app_nil_r. reflexivity. }
  assert (Hm : main gh a =
     ((using_line (r :: rs) :: map no_artifact_line (r :: rs)
       ++ [(Stderr, "No results collected.")])%list, Raise (SystemExit 1))).
  { unfold main. rewrite Hids, bind_ret, bind_print, Hc. reflexivity. }
  split; [exact Hc|]. split; [exact Hm|]. rewrite Hm. reflexivity.
Qed.

(** ** Discovery of the runs, and the exit status *)

Lemma get_run_ids_eq (gh : remote) (repo branch : string) :
  get_run_ids gh repo branch =
  match workflow_runs gh repo with
  | Fails h => ([], Raise (Helper h))
  | Answer data =>
      match filter (successful_on branch) data with
      | [] => ([no_runs_line branch], Raise (SystemExit 1))
      | runs => ([found_line (List.length runs) branch], Ok (map run_id runs))
      end
  end.
Proof.
  unfold get_run_ids. destruct (workflow_runs gh repo) as [data|h]; [|reflexivity].
  cbn [answered]. rewrite bind_lift_ok. fold (successful_on branch).
  destruct (filter (successful_on branch) data); reflexivity.
Qed.

(** X14.  What [get_run_ids] returns: the identifiers of the listed runs of
    the branch whose conclusion is ["success"], in the order of the listing,
    and at least one of them; it has then printed how many it found, and
    nothing else. *)
Theorem get_run_ids_selects (gh : remote) (repo branch : string)
    (out : list line) (ids : list Z) :
  get_run_ids gh repo branch = (out, Ok ids) ->
  ids <> []
  /\ out = [found_line (List.length ids) branch]
  /\ exists data,
       workflow_runs gh repo = Answer data
       /\ ids = map run_id (filter (successful_on branch) data)
       /\ forall id, In id ids <->
                     exists r, In r data /\ run_id r = id
                               /\ head_branch r = branch /\ conclusion r = "success".
Proof.
  rewrite get_run_ids_eq. destruct (workflow_runs gh repo) as [data|h]; [|discriminate].
  destruct (filter (successful_on branch) data) as [|r0 runs] eqn:Hf; [discriminate|].
  intros H. rewrite <- Hf in H. injection H as <- <-.
  split; [rewrite Hf; discriminate|]. split; [rewrite length_map; reflexivity|].
  exists data. split; [reflexivity|]. split; [reflexivity|].
  intros id. rewrite in_map_iff. split.
  - intros [r [Hid Hin]]. apply filter_In in Hin. destruct Hin as [Hin Hs].
    unfold successful_on in Hs. apply andb_true_iff in Hs. destruct Hs as [Hb Hc].
    apply String.eqb_eq in Hb, Hc. eauto 6.
  - intros [r [Hin [Hid [Hb Hc]]]]. exists r. split; [exact Hid|].
    apply filter_In. split; [exact Hin|].
    unfold successful_on. rewrite Hb, Hc, !String.eqb_refl. reflexivity.
Qed.

Lemma ends_well_bind {A} (m : io A) (k : A -> io unit) :
  match snd m with Ok a => ends_well (k a) | Raise e => not_exit e end ->
  ends_well (bind m k).
Proof.
  unfold ends_well. rewrite fst_bind, snd_bind.
  destruct (snd m) as [a|e]; [|intros H; right; right; eauto].
  intros [H|[[H [out [msg Hout]]]|H]]; [left; exact H| |right; right; exact H].
  right. left. split; [exact H|]. exists (fst m ++ out)%list, msg.
  rewrite Hout, app_assoc. reflexivity.
Qed.

Lemma collect_error_not_exit (e : exn) : collect_error e -> not_exit e.
Proof. intros [->|[->|[->|[h ->]]]] c; discriminate. Qed.

Lemma ends_well_analyze (by_bench : bench_groups) : ends_well (analyze by_bench).
Proof.
  destruct (analyze_snd by_bench) as [H|H]; [left; exact H|].
  right. right. exists OverflowError. split; [exact H|]. intros c. discriminate.
Qed.

Lemma ends_well_after_ids (gh : remote) (a : args) (run_ids : list Z) :
  ends_well
    (bind (print (snd (using_line run_ids)))
       (fun _ =>
          bind (collect_jsons gh (repo a) run_ids)
            (fun by_bench =>
               match by_bench with
               | [] => bind (eprint "No results collected.")
                         (fun _ => raise (SystemExit 1))
               | _ :: _ =>
                   bind (print (PyStr.newline ++ "Collected "
                                ++ Fmt.of_nat (first_group_size by_bench)
                                ++ " run(s) across "
                                ++ Fmt.of_nat (List.length by_bench) ++ " benchmark(s)"))
                     (fun _ => analyze by_bench)
               end))).
Proof.
  apply ends_well_bind. cbn [print snd].
  apply ends_well_bind.
  destruct (effects_collect_jsons gh (repo a) run_ids) as [_ He].
  destruct (snd (collect_jsons gh (repo a) run_ids)) as [by_bench|e];
    [|apply collect_error_not_exit; exact He].
  destruct by_bench as [|g by_bench].
  - right. left. split; [reflexivity|]. exists [], "No results collected.". reflexivity.
  - apply ends_well_bind. cbn [print snd]. apply ends_well_analyze.
Qed.

Lemma ends_well_main (gh : remote) (a : args) : ends_well (main gh a).
Proof.
  unfold main.
  destruct (workflow_run_ids a) as [[|r rs]|].
  2:{ rewrite bind_ret. apply ends_well_after_ids. }
  all: rewrite get_run_ids_eq;
    destruct (workflow_runs gh (repo a)) as [data|h];
    [ destruct (filter (successful_on (branch a)) data) as [|r0 runs] | ].
  all: try (right; left; split; [reflexivity|];
            exists [], (snd (no_runs_line (branch a))); reflexivity).
  all: try (right; right; exists (Helper h); split; [reflexivity|]; intros c; discriminate).
  all: apply ends_well_bind; cbn [snd]; apply ends_well_after_ids.
Qed.

(** X22.  The exit status of the script, once the command line is parsed.
    It is 0 or 1, and 0 exactly when [main] returns.  The script exits by
    itself with status 1 only, and the last thing it has printed then is a
    line on standard error. *)
Theorem main_exit_status (gh : remote) (a : args) :
  (exit_status (main gh a) = 0%Z \/ exit_status (main gh a) = 1%Z)
  /\ (exit_status (main gh a) = 0%Z <-> snd (main gh a) = Ok tt)
  /\ (forall c, snd (main gh a) = Raise (SystemExit c) ->
       c = 1%Z
       /\ exists out msg, printed (main gh a) = (out ++ [(Stderr, msg)])%list).
Proof.
  pose proof (ends_well_main gh a) as H. unfold ends_well, printed in *.
  unfold exit_status.
  destruct H as [H|[[H Hout]|[e [H He]]]]; rewrite H.
  - split; [left; reflexivity|]. split; [split; reflexivity|].
    intros c' Hc. discriminate.
  - split; [right; reflexivity|]. split; [split; discriminate|].
    intros c' Hc. injection Hc as <-. split; [reflexivity|exact Hout].
  - split; [|split].
    + destruct e; auto. exfalso. exact (He code eq_refl).
    + destruct e; split; try discriminate. exfalso. exact (He code eq_refl).
    + intros c' Hc. injection Hc as ->. exfalso. exact (He c' eq_refl).
Qed.

(** ** Explicit runs, and the directory of an artifact *)

Lemma bind_ext {A B} (m : io A) (k k' : A -> io B) :
  (forall a, k a = k' a) -> bind m k = bind m k'.
Proof. intros H. unfold bind. destruct (snd m); [rewrite H|]; reflexivity. Qed.

Lemma load_artifacts_runs (gh : remote) (runs : string -> answer (list workflow_run))
    (repo : string) (run : Z) (arts : list artifact) (st : tmpdir * bench_groups) :
  load_artifacts (with_workflow_runs gh runs) repo run arts st
  = load_artifacts gh repo run arts st.
Proof.
  revert st. induction arts as [|a rest IH]; intros st; cbn [load_artifacts]; [reflexivity|].
  change (download_artifact (with_workflow_runs gh runs) repo run a (fst st))
    with (download_artifact gh repo run a (fst st)).
  apply bind_ext. intros d. apply bind_ext. intros bb. apply IH.
Qed.

Lemma collect_runs_runs (gh : remote) (runs : string -> answer (list workflow_run))
    (repo : string) (run_ids : list Z) (st : tmpdir * bench_groups) :
  collect_runs (with_workflow_runs gh runs) repo run_ids st
  = collect_runs gh repo run_ids st.
Proof.
  revert st. induction run_ids as [|run rest IH]; intros st; cbn [collect_runs]; [reflexivity|].
  change (artifacts (with_workflow_runs gh runs) repo run) with (artifacts gh repo run).
  apply bind_ext. intros arts.
  destruct (filter is_perf_artifact arts) as [|a perf].
  - apply bind_ext. intros _. apply IH.
  - rewrite load_artifacts_runs. apply bind_ext. intros st'. apply IH.
Qed.

(** X21.  With run identifiers on the command line the workflow runs are
    never listed: the script prints and returns the same whatever that
    listing would answer, a failure of [gh] included. *)
Theorem main_explicit_ids_skip_discovery (gh : remote) (a : args)
    (runs : string -> answer (list workflow_run)) (r : Z) (rs : list Z) :
  workflow_run_ids a = Some (r :: rs) ->
  main (with_workflow_runs gh runs) a = main gh a.
Proof.
  intros Hids. unfold main. rewrite Hids.
  apply bind_ext. intros run_ids. apply bind_ext. intros _.
  unfold collect_jsons. rewrite collect_runs_runs. reflexivity.
Qed.

(** What a directory lists after a file was written to it. *)
Lemma write_file_keeps (g f : file) (dir : list file) :
  In f dir -> file_stem g <> file_stem f -> In f (write_file g dir).
Proof.
  intros Hin Hne. induction dir as [|h dir IH]; [contradiction|].
  cbn [write_file]. destruct (String.eqb_spec (file_stem g) (file_stem h)) as [Heq|Hd].
  - destruct Hin as [->|Hin]; [congruence|right; exact Hin].
  - destruct Hin as [->|Hin]; [left; reflexivity|right; apply IH; exact Hin].
Qed.

Lemma write_file_has (g : file) (dir : list file) : In g (write_file g dir).
Proof.
  induction dir as [|h dir IH]; cbn [write_file]; [left; reflexivity|].
  destruct (String.eqb (file_stem g) (file_stem h)); [left; reflexivity|right; exact IH].
Qed.

Lemma write_file_in (g f : file) (dir : list file) :
  In f (write_file g dir) -> f = g \/ In f dir.
Proof.
  induction dir as [|h dir IH]; cbn [write_file].
  - intros [<-|[]]. left. reflexivity.
  - destruct (String.eqb (file_stem g) (file_stem h)).
    + intros [<-|H]; [left; reflexivity|right; right; exact H].
    + intros [<-|H]; [right; left; reflexivity|].
      destruct (IH H) as [->|H']; [left; reflexivity|right; right; exact H'].
Qed.

Lemma write_file_stems (g : file) (dir : list file) (s : string) :
  In s (map file_stem (write_file g dir)) <-> s = file_stem g \/ In s (map file_stem dir).
Proof.
  induction dir as [|h dir IH]; cbn [write_file map In].
  - split; [intros [<-|[]]; left; reflexivity|intros [->|[]]; left; reflexivity].
  - destruct (String.eqb_spec (file_stem g) (file_stem h)) as [Heq|Hd]; cbn [map In].
    + rewrite Heq. intuition congruence.
    + rewrite IH. intuition congruence.
Qed.

Lemma write_file_nodup (g : file) (dir : list file) :
  NoDup (map file_stem dir) -> NoDup (map file_stem (write_file g dir)).
Proof.
  induction dir as [|h dir IH]; cbn [write_file map]; intros Hnd.
  - repeat constructor. intros [].
  - inversion Hnd as [|? ? Hh Hd]; subst.
    destruct (String.eqb_spec (file_stem g) (file_stem h)) as [Heq|Hne]; cbn [map].
    + rewrite Heq. constructor; assumption.
    + constructor; [|apply IH; exact Hd].
      rewrite write_file_stems. intros [H|H]; [congruence|contradiction].
Qed.

Lemma extractall_keeps (run : Z) (members : list json_member) (dir : list file) (f : file) :
  In f dir -> (forall m, In m members -> stem m <> file_stem f) ->
  In f (extractall run members dir).
Proof.
  unfold extractall. revert dir. induction members as [|m rest IH]; intros dir Hin Hst;
    cbn [fold_left]; [exact Hin|].
  apply IH; [|intros m' Hm'; apply Hst; right; exact Hm'].
  apply write_file_keeps; [exact Hin|]. cbn [file_stem]. apply Hst. left. reflexivity.
Qed.

Lemma extractall_has (run : Z) (members : list json_member) (dir : list file)
    (m : json_member) :
  In m members ->
  exists f, In f (extractall run members dir) /\ file_stem f = stem m /\ file_origin f = run.
Proof.
  unfold extractall. revert dir m. induction members as [|m' rest IH]; intros dir m Hin;
    [contradiction|]. cbn [fold_left].
  destruct (in_dec (fun a b => string_dec a b) (stem m) (map stem rest)) as [Hlater|Hnot].
  - apply in_map_iff in Hlater. destruct Hlater as [m2 [Hs Hm2]].
    destruct (IH (write_file (member_file run m') dir) m2 Hm2) as [f [Hf [Hfs Hfo]]].
    exists f. split; [exact Hf|]. split; [congruence|exact Hfo].
  - destruct Hin as [->|Hin].
    + exists (member_file run m). split; [|split; reflexivity].
      apply (extractall_keeps run rest); [apply write_file_has|].
      intros m2 Hm2 Heq. apply Hnot. apply in_map_iff. exists m2. split; [exact Heq|exact Hm2].
    + exfalso. apply Hnot. apply in_map. exact Hin.
Qed.

Lemma extractall_in (run : Z) (members : list json_member) (dir : list file) (f : file) :
  In f (extractall run members dir) -> In f dir \/ file_origin f = run.
Proof.
  unfold extractall. revert dir. induction members as [|m rest IH]; intros dir;
    cbn [fold_left]; [left; assumption|].
  intros H. destruct (IH _ H) as [H'|H']; [|right; exact H'].
  destruct (write_file_in _ _ _ H') as [->|H'']; [right; reflexivity|left; exact H''].
Qed.

Lemma extractall_nodup (run : Z) (members : list json_member) (dir : list file) :
  NoDup (map file_stem dir) -> NoDup (map file_stem (extractall run members dir)).
Proof.
  unfold extractall. revert dir. induction members as [|m rest IH]; intros dir Hnd;
    cbn [fold_left]; [exact Hnd|].
  apply IH. apply write_file_nodup. exact Hnd.
Qed.

Lemma get_set_same {V} (k : string) (v : V) (d : Dict.t V) :
  Dict.get k (Dict.set k v d) = Some v.
Proof.
  induction d as [|[k' v'] d IH]; cbn [Dict.set Dict.get].
  - rewrite String.eqb_refl. reflexivity.
  - destruct (String.eqb k k') eqn:E; cbn [Dict.get]; rewrite E; [reflexivity|exact IH].
Qed.

(** In a directory with one file for a name, the file of a name that was
    written is the file that was written. *)
Lemma write_file_written (g f : file) (dir : list file) :
  NoDup (map file_stem dir) -> In f (write_file g dir) -> file_stem f = file_stem g -> f = g.
Proof.
  induction dir as [|h dir IH]; cbn [write_file map]; intros Hnd Hin Hs.
  - destruct Hin as [<-|[]]. reflexivity.
  - inversion Hnd as [|? ? Hh Hd]; subst.
    destruct (String.eqb_spec (file_stem g) (file_stem h)) as [Heq|Hne].
    + destruct Hin as [<-|Hin]; [reflexivity|].
      exfalso. apply Hh. rewrite <- Heq, <- Hs. apply in_map. exact Hin.
    + destruct Hin as [<-|Hin]; [congruence|]. apply IH; assumption.
Qed.

(** A file of the directory after unpacking was there before, or is a member
    of the bundle. *)
Lemma extractall_old_or_member (run : Z) (members : list json_member) (dir : list file)
    (f : file) :
  In f (extractall run members dir) ->
  In f dir \/ exists m, In m members /\ f = member_file run m.
Proof.
  unfold extractall. revert dir. induction members as [|m rest IH]; intros dir;
    cbn [fold_left]; [left; assumption|].
  intros H. destruct (IH _ H) as [H'|[m' [Hm' ->]]]; [|right; exists m'; split; [right|]; auto].
  destruct (write_file_in _ _ _ H') as [->|H'']; [|left; exact H''].
  right. exists m. split; [left; reflexivity|reflexivity].
Qed.

(** A file that bears the name of a member is a member: the older file of
    that name was replaced. *)
Lemma extractall_replaced (run : Z) (members : list json_member) (dir : list file)
    (f : file) :
  NoDup (map file_stem dir) ->
  In f (extractall run members dir) ->
  In (file_stem f) (map stem members) ->
  exists m, In m members /\ f = member_file run m.
Proof.
  revert dir. induction members as [|m0 rest IH]; intros dir Hnd Hin Hs;
    [contradiction|].
  change (extractall run (m0 :: rest) dir)
    with (extractall run rest (write_file (member_file run m0) dir)) in Hin.
  destruct (in_dec string_dec (file_stem f) (map stem rest)) as [Hrest|Hnot].
  - destruct (IH _ (write_file_nodup _ _ Hnd) Hin Hrest) as [m [Hm ->]].
    exists m. split; [right; exact Hm|reflexivity].
  - destruct Hs as [Hs|Hs]; [|contradiction].
    destruct (extractall_old_or_member _ _ _ _ Hin) as [Hold|[m [Hm ->]]];
      [|exists m; split; [right; exact Hm|reflexivity]].
    exists m0. split; [left; reflexivity|].
    apply (write_file_written _ _ dir Hnd Hold). cbn [member_file file_stem]. congruence.
Qed.

(** A member of a bundle without two members of one name is in the directory
    after unpacking. *)
Lemma extractall_member_in (run : Z) (members : list json_member) (dir : list file)
    (m : json_member) :
  NoDup (map stem members) -> In m members ->
  In (member_file run m) (extractall run members dir).
Proof.
  revert dir. induction members as [|m0 rest IH]; intros dir Hnd Hin; [contradiction|].
  change (extractall run (m0 :: rest) dir)
    with (extractall run rest (write_file (member_file run m0) dir)).
  cbn [map] in Hnd. inversion Hnd as [|? ? Hm0 Hrest]; subst.
  destruct Hin as [->|Hin]; [|apply IH; assumption].
  apply extractall_keeps; [apply write_file_has|].
  intros m' Hm' Heq. apply Hm0. cbn [member_file file_stem] in Heq. rewrite <- Heq.
  apply in_map. exact Hm'.
Qed.

(** What the directory holds after unpacking. *)
Lemma extractall_iff (run : Z) (members : list json_member) (dir : list file) (f : file) :
  NoDup (map stem members) -> NoDup (map file_stem dir) ->
  In f (extractall run members dir) <->
  (exists m, In m members /\ f = member_file run m)
  \/ (In f dir /\ forall m, In m members -> stem m <> file_stem f).
Proof.
  intros Hm Hd. split.
  - intros Hin.
    destruct (in_dec string_dec (file_stem f) (map stem members)) as [Hs|Hs].
    + left. exact (extractall_replaced _ _ _ _ Hd Hin Hs).
    + destruct (extractall_old_or_member _ _ _ _ Hin) as [Hold|Hnew]; [|left; exact Hnew].
      right. split; [exact Hold|]. intros m Hin' Heq. apply Hs. rewrite <- Heq.
      apply in_map. exact Hin'.
  - intros [[m [Hin ->]]|[Hold Hs]].
    + apply extractall_member_in; assumption.
    + apply extractall_keeps; assumption.
Qed.

Lemma in_glob (dir : list file) (f : file) : In f (glob dir) <-> In f dir.
Proof.
  split; apply Permutation_in; [apply glob_perm|apply Permutation_sym, glob_perm].
Qed.

Lemma nodup_glob {A} (g : file -> A) (dir : list file) :
  NoDup (map g dir) -> NoDup (map g (glob dir)).
Proof.
  apply Permutation_NoDup, Permutation_map, Permutation_sym, glob_perm.
Qed.

(** X15.  [download_artifact], once the bundle is fetched.  It raises
    [IsADirectoryError] when the bundle cannot be written because an earlier
    artifact was called [name.zip], and [FileExistsError] when the directory
    cannot be made because the artifact is called as the bundle file of an
    earlier one.  Otherwise it unpacks the bundle over what the directory of
    that artifact name holds already, and the files it lists afterwards, each
    name once, are exactly: the members of the bundle, as files of this run,
    and the older files of the directory whose name no member bears.  A file
    left by an earlier artifact of the same name is thus listed again unless
    the bundle replaces it. *)
Theorem download_artifact_lists (gh : remote) (repo : string) (run : Z) (a : artifact)
    (tmp : tmpdir) (members : list json_member) :
  zip gh repo (artifact_id a) = Answer members ->
  (zip_path_is_directory (artifact_name a) tmp = true ->
   download_artifact gh repo run a tmp = Raise IsADirectoryError)
  /\ (zip_path_is_directory (artifact_name a) tmp = false ->
      out_dir_is_file (artifact_name a) tmp = true ->
      download_artifact gh repo run a tmp = Raise FileExistsError)
  /\ (zip_path_is_directory (artifact_name a) tmp = false ->
      out_dir_is_file (artifact_name a) tmp = false ->
      NoDup (map stem members) ->
      NoDup (map file_stem (listing (artifact_name a) tmp)) ->
      exists tmp' files,
        download_artifact gh repo run a tmp = Ok (tmp', files)
        /\ Permutation files (listing (artifact_name a) tmp')
        /\ NoDup (map file_stem files)
        /\ forall f, In f files <->
             (exists m, In m members /\ f = member_file run m)
             \/ (In f (listing (artifact_name a) tmp)
                 /\ forall m, In m members -> stem m <> file_stem f)).
Proof.
  intros Hz. unfold download_artifact. rewrite Hz.
  fold (listing (artifact_name a) tmp).
  split; [|split].
  - intros ->. reflexivity.
  - intros -> ->. reflexivity.
  - intros -> -> Hm Hd. cbn [answered rbind].
    eexists _, _. split; [reflexivity|]. split; [|split].
    + unfold listing. rewrite get_set_same. apply glob_perm.
    + apply nodup_glob, extractall_nodup, Hd.
    + intros f. rewrite in_glob. apply extractall_iff; assumption.
Qed.

(** ** What the collection returns *)

Section DictFacts.
Context {V : Type}.
Implicit Types (d : Dict.t V) (k : string) (v : V).

Lemma get_in k v d : Dict.get k d = Some v -> In (k, v) d.
Proof.
  induction d as [|[k' v'] d IH]; cbn [Dict.get]; [discriminate|].
  destruct (String.eqb_spec k k') as [->|Hne].
  - intros H. injection H as ->. left. reflexivity.
  - intros H. right. apply IH, H.
Qed.

Lemma get_none k d : Dict.get k d = None -> ~ In k (Dict.keys d).
Proof.
  induction d as [|[k' v'] d IH]; cbn [Dict.get Dict.keys map fst]; [intros _ []|].
  destruct (String.eqb_spec k k') as [->|Hne]; [discriminate|].
  intros H [Heq|Hin]; [congruence|]. exact (IH H Hin).
Qed.

Lemma get_some_key k v d : Dict.get k d = Some v -> In k (Dict.keys d).
Proof. intros H. apply get_in in H. apply (in_map fst) in H. exact H. Qed.

Lemma in_set k v d k' v' :
  In (k', v') (Dict.set k v d) -> (k' = k /\ v' = v) \/ In (k', v') d.
Proof.
  induction d as [|[k0 v0] d IH]; cbn [Dict.set].
  - intros [H|[]]. injection H as <- <-. left. split; reflexivity.
  - destruct (String.eqb_spec k k0) as [->|Hne].
    + intros [H|H]; [injection H as <- <-; left; split; reflexivity|right; right; exact H].
    + intros [H|H]; [right; left; exact H|].
      destruct (IH H) as [H'|H']; [left; exact H'|right; right; exact H'].
Qed.

Lemma keys_set_present k v d : In k (Dict.keys d) -> Dict.keys (Dict.set k v d) = Dict.keys d.
Proof.
  induction d as [|[k0 v0] d IH]; cbn [Dict.set Dict.keys map fst]; [intros []|].
  destruct (String.eqb_spec k k0) as [->|Hne]; [reflexivity|].
  intros [H|H]; [congruence|]. cbn [map fst]. f_equal. apply IH, H.
Qed.

Lemma wf_set k v d : Dict.wf d -> Dict.wf (Dict.set k v d).
Proof.
  unfold Dict.wf. intros Hwf.
  destruct (in_dec string_dec k (Dict.keys d)) as [Hin|Hnot].
  - rewrite keys_set_present by assumption. exact Hwf.
  - rewrite set_fresh by assumption. unfold Dict.keys. rewrite map_app. cbn [map fst].
    apply NoDup_app; [exact Hwf|repeat constructor; intros []|].
    intros x Hx [<-|[]]. exact (Hnot Hx).
Qed.

End DictFacts.

Lemma wf_setdefault_append {V} (k : string) (v : V) (d : Dict.t (list V)) :
  Dict.wf d -> Dict.wf (Dict.setdefault_append k v d).
Proof. unfold Dict.setdefault_append. destruct (Dict.get k d); apply wf_set. Qed.

Lemma in_setdefault_append {V} (k : string) (v : V) (d : Dict.t (list V))
    (k' : string) (g : list V) :
  In (k', g) (Dict.setdefault_append k v d) ->
  In (k', g) d
  \/ (k' = k /\ ((Dict.get k d = None /\ g = [v])
                 \/ exists vs, Dict.get k d = Some vs /\ g = (vs ++ [v])%list)).
Proof.
  unfold Dict.setdefault_append. destruct (Dict.get k d) as [vs|] eqn:Hg; intros H;
    apply in_set in H; destruct H as [[-> ->]|H]; eauto 7.
Qed.

Section Provenance.
Variable gh : remote.
Variable repo : string.
Variable runs : list Z.

Lemma groups_from_append (by_bench : bench_groups) (bench : string) (e : entry) :
  groups_from gh repo runs by_bench -> loaded_from gh repo runs bench e ->
  groups_from gh repo runs (Dict.setdefault_append bench e by_bench).
Proof.
  intros [Hwf Hg] He. split; [apply wf_setdefault_append, Hwf|].
  intros b g Hin. apply in_setdefault_append in Hin.
  destruct Hin as [Hin|[-> [[_ ->]|[vs [Hget ->]]]]].
  - exact (Hg _ _ Hin).
  - split; [discriminate|]. constructor; [exact He|constructor].
  - split; [destruct vs; discriminate|].
    apply Forall_app. split; [|constructor; [exact He|constructor]].
    apply get_in in Hget. apply (Hg _ _ Hget).
Qed.

Lemma load_files_from (run : Z) (files : list file)
    (by_bench by_bench' : bench_groups) (out : list line) :
  files_from gh repo runs files -> groups_from gh repo runs by_bench ->
  load_files run files by_bench = (out, Ok by_bench') ->
  groups_from gh repo runs by_bench'.
Proof.
  revert by_bench out. induction files as [|f rest IH]; intros by_bench out Hf Hg;
    cbn [load_files].
  - intros H. injection H as _ <-. exact Hg.
  - inversion Hf as [|? ? Hf1 Hf2]; subst.
    destruct (file_results f) as [data|h] eqn:Hres; cbn [answered]; [|discriminate].
    rewrite bind_lift_ok. destruct data as [|r data]; [discriminate|].
    rewrite bind_lift_ok, bind_print.
    destruct (load_files run rest _) as [out' r'] eqn:Hrec. cbn [fst snd].
    intros H. injection H as _ ->.
    eapply IH; [exact Hf2| |exact Hrec].
    apply groups_from_append; [exact Hg|].
    destruct Hf1 as [Hrun [a [members [m [Ha [Hz [Hm [Hs Hr]]]]]]]].
    split; [exact Hrun|]. exists a, members, m, data. cbn [origin hyperfine].
    repeat split; try assumption; congruence.
Qed.

Lemma download_from (run : Z) (a : artifact) (tmp tmp' : tmpdir) (files : list file) :
  In run runs -> In a (perf_artifacts gh repo run) ->
  tmp_from gh repo runs tmp ->
  download_artifact gh repo run a tmp = Ok (tmp', files) ->
  tmp_from gh repo runs tmp' /\ files_from gh repo runs files.
Proof.
  intros Hrun Ha Htmp Hd.
  destruct (download_artifact_ok _ _ _ _ _ _ _ Hd) as [members [Hz [_ [_ [-> ->]]]]].
  assert (Hfiles : files_from gh repo runs
                     (extractall run members (listing (artifact_name a) tmp))).
  { apply Forall_forall. intros f Hf. apply extractall_old_or_member in Hf.
    destruct Hf as [Hf|[m [Hm ->]]].
    - unfold listing in Hf.
      destruct (Dict.get (artifact_name a) tmp) as [dir|] eqn:Hg; [|contradiction].
      apply get_in in Hg. specialize (Htmp _ _ Hg).
      unfold files_from in Htmp. rewrite Forall_forall in Htmp. apply Htmp, Hf.
    - split; [exact Hrun|]. exists a, members, m. cbn [member_file file_origin file_stem
        file_results]. auto. }
  split.
  - intros name dir Hin. apply in_set in Hin. destruct Hin as [[_ ->]|Hin];
      [exact Hfiles|exact (Htmp _ _ Hin)].
  - unfold files_from in *. rewrite Forall_forall in *. intros f Hf.
    apply Hfiles, in_glob, Hf.
Qed.

Lemma load_artifacts_from (run : Z) (arts : list artifact)
    (st st' : tmpdir * bench_groups) (out : list line) :
  In run runs -> incl arts (perf_artifacts gh repo run) ->
  state_from gh repo runs st ->
  load_artifacts gh repo run arts st = (out, Ok st') ->
  state_from gh repo runs st'.
Proof.
  intros Hrun. revert st out. induction arts as [|a rest IH]; intros st out Harts Hst;
    cbn [load_artifacts].
  - intros H. injection H as _ <-. exact Hst.
  - destruct Hst as [Htmp Hg].
    destruct (download_artifact gh repo run a (fst st)) as [[tmp' files]|e] eqn:Hd;
      [|discriminate].
    rewrite bind_lift_ok. cbn [fst snd].
    destruct (download_from _ _ _ _ _ Hrun (Harts a (or_introl eq_refl)) Htmp Hd)
      as [Htmp' Hfiles].
    intros H. apply bind_inv_ok in H. destruct H as [out1 [bb [out2 [Hl [Hrec _]]]]].
    eapply IH; [| |exact Hrec].
    + intros a' Ha'. apply Harts. right. exact Ha'.
    + split; [exact Htmp'|]. cbn [snd]. eapply load_files_from; eassumption.
Qed.

Lemma collect_runs_from (run_ids : list Z) (st st' : tmpdir * bench_groups)
    (out : list line) :
  incl run_ids runs -> state_from gh repo runs st ->
  collect_runs gh repo run_ids st = (out, Ok st') ->
  state_from gh repo runs st'.
Proof.
  revert st out. induction run_ids as [|run rest IH]; intros st out Hincl Hst;
    cbn [collect_runs].
  - intros H. injection H as _ <-. exact Hst.
  - assert (Hrun : In run runs) by (apply Hincl; left; reflexivity).
    assert (Hrest : incl rest runs) by (intros x Hx; apply Hincl; right; exact Hx).
    pose proof (incl_refl (perf_artifacts gh repo run)) as Hperf.
    unfold perf_artifacts in Hperf at 1.
    destruct (artifacts gh repo run) as [arts|h]; cbn [answered]; [|discriminate].
    rewrite bind_lift_ok.
    destruct (filter is_perf_artifact arts) as [|a perf].
    + rewrite bind_print.
      destruct (collect_runs gh repo rest st) as [out' r'] eqn:Hrec. cbn [fst snd].
      intros H. injection H as _ ->. eapply IH; eassumption.
    + intros H. apply bind_inv_ok in H. destruct H as [out1 [st1 [out2 [Hl [Hrec _]]]]].
      eapply IH; [exact Hrest| |exact Hrec].
      eapply load_artifacts_from; eassumption.
Qed.

End Provenance.

Lemma collect_jsons_state (gh : remote) (repo : string) (run_ids : list Z)
    (out : list line) (by_bench : bench_groups) :
  collect_jsons gh repo run_ids = (out, Ok by_bench) ->
  groups_from gh repo run_ids by_bench.
Proof.
  unfold collect_jsons. intros H. apply bind_inv_ok in H.
  destruct H as [out1 [st [out2 [Hrun [Hret _]]]]].
  injection Hret as _ <-.
  assert (Hst : state_from gh repo run_ids st).
  { eapply collect_runs_from; [apply incl_refl| |exact Hrun].
    split; [intros name dir []|]. split; [constructor|intros b g []]. }
  apply Hst.
Qed.

(** X18.  What [collect_jsons] returns: a dictionary in which every
    benchmark stands once, with a group that is not empty.  Every result of
    the group of a benchmark is the first result of the file of that name in
    the bundle of a perfcompare artifact of one of the runs it was given. *)
Theorem collect_jsons_groups (gh : remote) (repo : string) (run_ids : list Z)
    (out : list line) (by_bench : bench_groups) :
  collect_jsons gh repo run_ids = (out, Ok by_bench) ->
  Dict.wf by_bench
  /\ forall bench group, In (bench, group) by_bench ->
       group <> []
       /\ forall e, In e group ->
            exists run a members m rest,
              In run run_ids /\ In a (perf_artifacts gh repo run)
              /\ zip gh repo (artifact_id a) = Answer members /\ In m members
              /\ stem m = bench /\ results m = Answer (hyperfine e :: rest).
Proof.
  intros H. destruct (collect_jsons_state _ _ _ _ _ H) as [Hwf Hg].
  split; [exact Hwf|].
  intros bench group Hin. destruct (Hg _ _ Hin) as [Hne Hall].
  split; [exact Hne|]. rewrite Forall_forall in Hall.
  intros e He. destruct (Hall e He) as [Hrun [a [members [m [rest Hrest]]]]].
  exists (origin e), a, members, m, rest. split; [exact Hrun|exact Hrest].
Qed.

(** ** The width of the table *)

Lemma len_app (s t : string) : PyStr.len (s ++ t) = PyStr.len s + PyStr.len t.
Proof.
  induction s as [|c s IH]; cbn [append PyStr.len]; [reflexivity|].
  rewrite IH. apply Nat.add_assoc.
Qed.

Lemma len_spaces (n : nat) : PyStr.len (PyStr.repeat " " n) = n.
Proof. induction n as [|n IH]; cbn [PyStr.repeat PyStr.len]; [reflexivity|]. rewrite IH. reflexivity. Qed.

Lemma len_ljust (w : nat) (s : string) : PyStr.len (PyStr.ljust w s) = Nat.max w (PyStr.len s).
Proof. unfold PyStr.ljust. rewrite len_app, len_spaces. lia. Qed.

Lemma len_rjust (w : nat) (s : string) : PyStr.len (PyStr.rjust w s) = Nat.max w (PyStr.len s).
Proof. unfold PyStr.rjust. rewrite len_app, len_spaces. lia. Qed.

Lemma len_key_le (rows : Dict.t summary) (bench : string) (s : summary) :
  In (bench, s) rows -> PyStr.len bench + 2 <= column_width rows.
Proof.
  intros Hin. unfold column_width.
  assert (H : PyStr.len bench <= list_max (map PyStr.len (Dict.keys rows))).
  { pose proof (proj1 (list_max_le (map PyStr.len (Dict.keys rows)) _) (Nat.le_refl _)) as Hall.
    rewrite Forall_forall in Hall. apply Hall.
    apply in_map. unfold Dict.keys. apply (in_map fst) in Hin. exact Hin. }
  lia.
Qed.

(** X11.  The width of the table.  A row whose statistics fit their columns
    is two characters more than the longest name and 58 more; the header and
    the rule of dashes are as wide when that name has seven characters or
    more, and wider when it is shorter, since the word "benchmark" needs
    nine. *)
Theorem table_rows_width (rows : Dict.t summary) (bench : string) (s : summary) :
  In (bench, s) rows -> fits_columns s ->
  PyStr.len (table_row (column_width rows) bench s) = column_width rows + 58
  /\ PyStr.len (table_header (column_width rows)) = Nat.max (column_width rows) 9 + 58.
Proof.
  intros Hin [Ha [Hs [Hc [Hr Hrc]]]]. pose proof (len_key_le rows bench s Hin) as Hk.
  unfold table_row, table_header.
  rewrite !len_app, !len_ljust, !len_rjust.
  change (PyStr.len "  ") with 2. change (PyStr.len "benchmark") with 9.
  change (PyStr.len "average") with 7. change (PyStr.len "std") with 3.
  change (PyStr.len "cv") with 2. change (PyStr.len "range") with 5.
  change (PyStr.len "range%") with 6.
  split; lia.
Qed.

(** ** What a pass reads *)

Lemma build_rows_with_same (f : list float -> result summary) (key : selector)
    (b1 b2 : bench_groups) (rows : Dict.t summary) :
  same_values key b1 b2 -> build_rows_with f key b1 rows = build_rows_with f key b2 rows.
Proof.
  intros H. revert rows.
  induction H as [|[bench1 res1] [bench2 res2] b1 b2 [Hb Hv] _ IH]; intros rows;
    [reflexivity|].
  cbn [fst] in Hb. unfold values_of in Hv. cbn [snd] in Hv. subst bench2.
  cbn [build_rows_with]. rewrite Hv.
  destruct (List.length (map (select key) res2) <? 2)%nat.
  - rewrite IH. reflexivity.
  - apply bind_ext. intros s. apply IH.
Qed.

Lemma first_group_size_same (key : selector) (b1 b2 : bench_groups) :
  same_values key b1 b2 -> first_group_size b1 = first_group_size b2.
Proof.
  intros H. destruct H as [|[bench1 res1] [bench2 res2] b1 b2 [_ Hv] _]; [reflexivity|].
  cbn [first_group_size]. unfold values_of in Hv. cbn [snd] in Hv.
  apply (f_equal (@List.length float)) in Hv. rewrite !length_map in Hv. exact Hv.
Qed.

(** X12.  A pass reads nothing of a result but the field it is run for: two
    dictionaries with the same benchmarks and the same values of that field
    give the same lines and the same outcome, whatever their other fields
    hold. *)
Theorem analyze_pass_reads_selected_field (label : string) (key : selector)
    (b1 b2 : bench_groups) :
  same_values key b1 b2 -> analyze_pass label key b1 = analyze_pass label key b2.
Proof.
  intros H. unfold analyze_pass, build_rows.
  rewrite (build_rows_with_same stats key b1 b2 [] H), (first_group_size_same key b1 b2 H).
  reflexivity.
Qed.

(** ** One result of a run in a group *)

Lemma appended_incl (P P' : list (Z * string)) (by_bench : bench_groups) :
  incl P P' -> appended P by_bench -> appended P' by_bench.
Proof.
  intros Hincl H bench group Hin. destruct (H _ _ Hin) as [Hnd Hall].
  split; [exact Hnd|]. intros e He. apply Hincl, Hall, He.
Qed.

Lemma appended_append (P : list (Z * string)) (by_bench : bench_groups)
    (bench : string) (e : entry) :
  appended P by_bench -> ~ In (origin e, bench) P ->
  appended ((origin e, bench) :: P) (Dict.setdefault_append bench e by_bench).
Proof.
  intros HP Hnew b g Hin. apply in_setdefault_append in Hin.
  destruct Hin as [Hin|[-> [[_ ->]|[vs [Hget ->]]]]].
  - destruct (HP _ _ Hin) as [Hnd Hall]. split; [exact Hnd|].
    intros e' He'. right. apply Hall, He'.
  - split; [repeat constructor; intros []|]. intros e' [<-|[]]. left. reflexivity.
  - apply get_in in Hget. destruct (HP _ _ Hget) as [Hnd Hall]. split.
    + rewrite map_app. cbn [map]. apply NoDup_app; [exact Hnd|repeat constructor; intros []|].
      intros o Ho [<-|[]]. apply in_map_iff in Ho. destruct Ho as [e' [Heq He']].
      apply Hnew. rewrite <- Heq. apply Hall, He'.
    + intros e' He'. apply in_app_or in He'. destruct He' as [He'|[<-|[]]].
      * right. apply Hall, He'.
      * left. reflexivity.
Qed.

Lemma load_files_appended (run : Z) (files : list file) (by_bench by_bench' : bench_groups)
    (P : list (Z * string)) (out : list line) :
  appended P by_bench ->
  NoDup (map pair_of files) ->
  (forall f, In f files -> ~ In (pair_of f) P) ->
  load_files run files by_bench = (out, Ok by_bench') ->
  appended (map pair_of files ++ P) by_bench'.
Proof.
  revert by_bench P out. induction files as [|f rest IH]; intros by_bench P out HP Hnd Hnew;
    cbn [load_files].
  - intros H. injection H as _ <-. exact HP.
  - cbn [map] in Hnd. inversion Hnd as [|? ? Hf Hrest]; subst.
    destruct (file_results f) as [data|h]; cbn [answered]; [|discriminate].
    rewrite bind_lift_ok. destruct data as [|r data]; [discriminate|].
    rewrite bind_lift_ok, bind_print.
    destruct (load_files run rest _) as [out' r'] eqn:Hrec. cbn [fst snd].
    intros H. injection H as _ ->.
    eapply appended_incl; [|eapply (IH _ (pair_of f :: P)); [| | |exact Hrec]].
    + intros p Hp. cbn [map app]. apply in_app_or in Hp.
      destruct Hp as [Hp|[<-|Hp]]; [right; apply in_or_app; left; exact Hp
                                   |left; reflexivity
                                   |right; apply in_or_app; right; exact Hp].
    + apply (appended_append P by_bench (file_stem f)
               {| origin := file_origin f; hyperfine := r |}); [exact HP|].
      apply Hnew. left. reflexivity.
    + exact Hrest.
    + intros f' Hf' [Heq|Hin].
      * apply Hf. rewrite Heq. apply in_map. exact Hf'.
      * apply (Hnew f'); [right; exact Hf'|exact Hin].
Qed.

Lemma extractall_stems (run : Z) (members : list json_member) (dir : list file) (f : file) :
  In f (extractall run members dir) ->
  In f dir \/ (file_origin f = run /\ In (file_stem f) (map stem members)).
Proof.
  unfold extractall. revert dir. induction members as [|m rest IH]; intros dir;
    cbn [fold_left]; [left; assumption|].
  intros H. destruct (IH _ H) as [H'|[Ho Hs]]; [|right; split; [exact Ho|right; exact Hs]].
  destruct (write_file_in _ _ _ H') as [->|H'']; [|left; exact H''].
  right. split; [reflexivity|left; reflexivity].
Qed.

Lemma extractall_member (run : Z) (members : list json_member) (dir : list file) (f : file) :
  NoDup (map file_stem dir) ->
  In f (extractall run members dir) ->
  In (file_stem f) (map stem members) ->
  file_origin f = run.
Proof.
  unfold extractall. revert dir. induction members as [|m rest IH]; intros dir Hnd Hin Hs;
    cbn [fold_left map] in *; [contradiction|].
  destruct (in_dec string_dec (file_stem f) (map stem rest)) as [Hrest|Hnot].
  - eapply IH; [|exact Hin|exact Hrest]. apply write_file_nodup. exact Hnd.
  - destruct Hs as [Hs|Hs]; [|contradiction].
    destruct (extractall_stems run rest _ f Hin) as [Hold|[Ho _]]; [|exact Ho].
    apply write_file_written in Hold; [|exact Hnd|cbn [file_stem]; congruence].
    rewrite Hold. reflexivity.
Qed.

Lemma nodup_pairs (files : list file) :
  NoDup (map file_stem files) -> NoDup (map pair_of files).
Proof.
  induction files as [|f rest IH]; cbn [map]; intros H; [constructor|].
  inversion H as [|? ? Hf Hrest]; subst. constructor; [|apply IH, Hrest].
  intros Hin. apply Hf. apply in_map_iff in Hin. destruct Hin as [f' [Heq Hf']].
  apply in_map_iff. exists f'. split; [|exact Hf'].
  unfold pair_of in Heq. congruence.
Qed.

Lemma nodup_app_disjoint {A} (l1 l2 : list A) :
  NoDup (l1 ++ l2) -> forall a, In a l1 -> ~ In a l2.
Proof.
  induction l1 as [|x l1 IH]; cbn [app]; intros H a Ha; [contradiction|].
  inversion H as [|? ? Hx Hrest]; subst. destruct Ha as [->|Ha].
  - intros Hin. apply Hx. apply in_or_app. right. exact Hin.
  - apply IH; assumption.
Qed.

Lemma listing_nodup (gh : remote) (repo : string) (runs : list Z) (tmp : tmpdir)
    (name : string) :
  dirs_covered gh repo runs tmp -> NoDup (map file_stem (listing name tmp)).
Proof.
  intros H. unfold listing. destruct (Dict.get name tmp) as [dir|] eqn:Hg; [|constructor].
  apply get_in in Hg. apply (H _ _ Hg).
Qed.

Section Distinct.
Variable gh : remote.
Variable repo : string.
Variable runs : list Z.
Hypothesis Hsame : same_benchmarks gh repo runs.

Lemma download_files (run : Z) (a : artifact) (tmp : tmpdir) (members : list json_member) :
  In run runs -> In a (perf_artifacts gh repo run) ->
  dirs_covered gh repo runs tmp ->
  zip gh repo (artifact_id a) = Answer members ->
  forall f, In f (extractall run members (listing (artifact_name a) tmp)) ->
            file_origin f = run /\ In (file_stem f) (map stem members).
Proof.
  intros Hrun Ha Htmp Hzip f Hf.
  assert (Hstems : bundle_stems gh repo a = map stem members).
  { unfold bundle_stems. rewrite Hzip. reflexivity. }
  assert (Hs : In (file_stem f) (map stem members)).
  { destruct (extractall_stems _ _ _ _ Hf) as [Hold|[_ Hs]]; [|exact Hs].
    unfold listing in Hold.
    destruct (Dict.get (artifact_name a) tmp) as [dir|] eqn:Hg; [|contradiction].
    apply get_in in Hg. destruct (Htmp _ _ Hg) as [_ [r0 [a0 [Hr0 [Ha0 [Hname Hcov]]]]]].
    rewrite <- Hstems. apply (Hsame r0 run a0 a Hr0 Hrun Ha0 Ha Hname).
    apply Hcov, Hold. }
  split; [|exact Hs].
  eapply extractall_member; [|exact Hf|exact Hs].
  eapply listing_nodup. exact Htmp.
Qed.

Lemma load_artifacts_appended (run : Z) (arts : list artifact)
    (st st' : tmpdir * bench_groups) (P : list (Z * string)) (out : list line) :
  In run runs -> incl arts (perf_artifacts gh repo run) ->
  appended P (snd st) ->
  dirs_covered gh repo runs (fst st) ->
  NoDup (List.concat (map (bundle_stems gh repo) arts)) ->
  (forall a s, In a arts -> In s (bundle_stems gh repo a) -> ~ In (run, s) P) ->
  load_artifacts gh repo run arts st = (out, Ok st') ->
  exists P',
    appended P' (snd st')
    /\ (forall p, In p P' -> In p P \/ fst p = run)
    /\ dirs_covered gh repo runs (fst st').
Proof.
  intros Hrun. revert st P out.
  induction arts as [|a rest IH]; intros st P out Harts HP Htmp Hstems Hnew;
    cbn [load_artifacts].
  - intros H. injection H as _ <-. exists P. auto.
  - cbn [map List.concat] in Hstems.
    assert (Ha : In a (perf_artifacts gh repo run)) by (apply Harts; left; reflexivity).
    destruct (download_artifact gh repo run a (fst st)) as [[tmp' listed]|e] eqn:Hd;
      [|discriminate].
    destruct (download_artifact_ok _ _ _ _ _ _ _ Hd) as [members [Hzip [_ [_ [-> ->]]]]].
    rewrite bind_lift_ok. cbn [fst snd].
    intros H. apply bind_inv_ok in H. destruct H as [out1 [bb [out2 [Hl [Hrec _]]]]].
    assert (Hstems_a : bundle_stems gh repo a = map stem members).
    { unfold bundle_stems. rewrite Hzip. reflexivity. }
    pose proof (download_files run a (fst st) members Hrun Ha Htmp Hzip) as Hfiles.
    set (files := extractall run members (listing (artifact_name a) (fst st))) in *.
    assert (Hnd : NoDup (map file_stem files)).
    { apply extractall_nodup. eapply listing_nodup. exact Htmp. }
    assert (Hlisted : forall f, In f (glob files) ->
                                file_origin f = run /\ In (file_stem f) (map stem members)).
    { intros f Hf. apply Hfiles, in_glob, Hf. }
    assert (HP1 : appended (map pair_of (glob files) ++ P) bb).
    { eapply load_files_appended; [exact HP| | |exact Hl].
      - apply nodup_glob, nodup_pairs, Hnd.
      - intros f Hf. destruct (Hlisted f Hf) as [Ho Hs]. unfold pair_of. rewrite Ho.
        apply (Hnew a); [left; reflexivity|]. rewrite Hstems_a. exact Hs. }
    destruct (IH (Dict.set (artifact_name a) files (fst st), bb)
                 (map pair_of (glob files) ++ P)%list out2) as [P' [HP' [Hruns Hcov]]].
    + intros a' Ha'. apply Harts. right. exact Ha'.
    + exact HP1.
    + cbn [fst]. intros name dir Hin. apply in_set in Hin.
      destruct Hin as [[-> ->]|Hin]; [|exact (Htmp _ _ Hin)].
      split; [exact Hnd|]. exists run, a. repeat split; try assumption.
      intros f Hf. rewrite Hstems_a. apply (Hfiles f Hf).
    + eapply NoDup_app_remove_l. exact Hstems.
    + intros a' s Ha' Hs Hin. apply in_app_or in Hin. destruct Hin as [Hin|Hin].
      * apply in_map_iff in Hin. destruct Hin as [f [Heq Hf]].
        destruct (Hlisted f Hf) as [_ Hsf]. unfold pair_of in Heq.
        injection Heq as _ Heq. rewrite Heq in Hsf.
        pose proof (nodup_app_disjoint _ _ Hstems) as Hdisj.
        apply (Hdisj s); [rewrite Hstems_a; exact Hsf|].
        apply in_concat. exists (bundle_stems gh repo a'). split; [|exact Hs].
        apply in_map. exact Ha'.
      * apply (Hnew a' s); [right; exact Ha'|exact Hs|exact Hin].
    + exact Hrec.
    + exists P'. split; [exact HP'|]. split; [|exact Hcov].
      intros p Hp. destruct (Hruns p Hp) as [Hp'|Hp']; [|right; exact Hp'].
      apply in_app_or in Hp'. destruct Hp' as [Hp'|Hp']; [|left; exact Hp'].
      apply in_map_iff in Hp'. destruct Hp' as [f [<- Hf]]. right.
      apply (Hlisted f Hf).
Qed.

Lemma collect_runs_appended (run_ids : list Z) (st st' : tmpdir * bench_groups)
    (P : list (Z * string)) (out : list line) :
  incl run_ids runs ->
  appended P (snd st) ->
  dirs_covered gh repo runs (fst st) ->
  NoDup run_ids ->
  (forall run p, In run run_ids -> In p P -> fst p <> run) ->
  (forall run, In run run_ids -> NoDup (run_stems gh repo run)) ->
  collect_runs gh repo run_ids st = (out, Ok st') ->
  exists P', appended P' (snd st').
Proof.
  revert st P out. induction run_ids as [|run rest IH];
    intros st P out Hincl HP Htmp Hruns Hold Hstems; cbn [collect_runs].
  - intros H. injection H as _ <-. exists P. exact HP.
  - inversion Hruns as [|? ? Hrun Hruns']; subst.
    assert (Hin : In run runs) by (apply Hincl; left; reflexivity).
    assert (Hincl' : incl rest runs) by (intros x Hx; apply Hincl; right; exact Hx).
    pose proof (Hstems run (or_introl eq_refl)) as Hst_run.
    pose proof (incl_refl (perf_artifacts gh repo run)) as Hperf.
    unfold run_stems in Hst_run. unfold perf_artifacts in Hst_run, Hperf at 1.
    destruct (artifacts gh repo run) as [arts|h] eqn:Harts; cbn [answered]; [|discriminate].
    rewrite bind_lift_ok.
    destruct (filter is_perf_artifact arts) as [|a perf] eqn:Hfilter.
    + rewrite bind_print.
      destruct (collect_runs gh repo rest st) as [out' r'] eqn:Hrec. cbn [fst snd].
      intros H. injection H as _ ->.
      eapply (IH st P); [exact Hincl'|exact HP|exact Htmp|exact Hruns'| | |exact Hrec].
      * intros r p Hr Hp. apply (Hold r p); [right; exact Hr|exact Hp].
      * intros r Hr. apply Hstems. right. exact Hr.
    + intros H. apply bind_inv_ok in H. destruct H as [out1 [st1 [out2 [Hl [Hrec _]]]]].
      destruct (load_artifacts_appended run (a :: perf) st st1 P out1)
        as [P1 [HP1 [Hp1 Hcov1]]]; try assumption.
      * intros a' s _ _ Hp. apply (Hold run (run, s)); [left; reflexivity|exact Hp|reflexivity].
      * eapply (IH st1 P1); [exact Hincl'|exact HP1|exact Hcov1|exact Hruns'| | |exact Hrec].
        -- intros r p Hr Hp. destruct (Hp1 p Hp) as [Hp'|Hp'].
           ++ apply (Hold r p); [right; exact Hr|exact Hp'].
           ++ rewrite Hp'. intros ->. exact (Hrun Hr).
        -- intros r Hr. apply Hstems. right. exact Hr.
Qed.

End Distinct.

(** X19.  One result for a run.  When the runs are distinct, no benchmark
    stands twice in the bundles of one run, and the bundles of the artifacts
    of one name hold the same benchmarks from run to run, no group that
    [collect_jsons] returns holds two results of one run; a group has then
    at most as many results as there are runs. *)
Theorem collect_jsons_distinct_runs (gh : remote) (repo : string) (run_ids : list Z)
    (out : list line) (by_bench : bench_groups) :
  NoDup run_ids ->
  (forall run, In run run_ids -> NoDup (run_stems gh repo run)) ->
  same_benchmarks gh repo run_ids ->
  collect_jsons gh repo run_ids = (out, Ok by_bench) ->
  forall bench group, In (bench, group) by_bench ->
    NoDup (map origin group) /\ (List.length group <= List.length run_ids)%nat.
Proof.
  intros Hruns Hstems Hsame H bench group Hin.
  assert (Hnd : NoDup (map origin group)).
  { unfold collect_jsons in H. apply bind_inv_ok in H.
    destruct H as [out1 [st [out2 [Hrun [Hret _]]]]]. injection Hret as _ <-.
    destruct (collect_runs_appended gh repo run_ids Hsame run_ids ([], []) st [] out1)
      as [P HP]; auto.
    - apply incl_refl.
    - intros b g [].
    - intros name dir [].
    - apply (HP _ _ Hin). }
  split; [exact Hnd|].
  destruct (collect_jsons_state _ _ _ _ _ H) as [_ Hg].
  destruct (Hg _ _ Hin) as [_ Hall]. rewrite Forall_forall in Hall.
  rewrite <- (length_map origin group). apply NoDup_incl_length; [exact Hnd|].
  intros o Ho. apply in_map_iff in Ho. destruct Ho as [e [<- He]]. apply (Hall e He).
Qed.

(** ** Discovery and the command line *)

(** X23.  Discovery and the option agree: when no run is named on the command
    line and [get_run_ids] finds runs, the script goes on as if these runs
    had been named; it prints the same lines after the line on how many runs
    it found, and ends the same. *)
Theorem main_discovered_runs (gh : remote) (a : args) (out : list line) (ids : list Z) :
  workflow_run_ids a = None ->
  get_run_ids gh (repo a) (branch a) = (out, Ok ids) ->
  out = [found_line (List.length ids) (branch a)]
  /\ main gh a = ((out ++ fst (main gh (with_run_ids a ids)))%list,
                  snd (main gh (with_run_ids a ids))).
Proof.
  intros Hnone Hget.
  assert (Hout : out = [found_line (List.length ids) (branch a)] /\ ids <> []).
  { rewrite get_run_ids_eq in Hget.
    destruct (workflow_runs gh (repo a)) as [data|h]; [|discriminate].
    destruct (filter (successful_on (branch a)) data) as [|r0 runs] eqn:Hf; [discriminate|].
    rewrite <- Hf in Hget. injection Hget as <- <-.
    split; [rewrite length_map; reflexivity|]. rewrite Hf. discriminate. }
  destruct Hout as [Hout Hne]. split; [exact Hout|].
  unfold main. rewrite Hnone, Hget. cbn [with_run_ids workflow_run_ids repo].
  destruct ids as [|r rs]; [congruence|].
  rewrite bind_ret. unfold bind at 1. cbn [fst snd]. reflexivity.
Qed.

(** X24.  When no run is named on the command line and the listing has no
    successful run of the branch, the script prints one line on standard
    error, nothing on standard output, and exits with status 1: it lists no
    artifact and analyses nothing. *)
Theorem main_no_successful_run (gh : remote) (a : args) (data : list workflow_run) :
  workflow_run_ids a = None ->
  workflow_runs gh (repo a) = Answer data ->
  (forall r, In r data -> head_branch r <> branch a \/ conclusion r <> "success") ->
  main gh a = ([no_runs_line (branch a)], Raise (SystemExit 1))
  /\ stdout_of (printed (main gh a)) = []
  /\ exit_status (main gh a) = 1%Z.
Proof.
  intros Hnone Hruns Hnot.
  assert (Hf : filter (successful_on (branch a)) data = []).
  { clear Hruns. induction data as [|r data IH]; [reflexivity|]. cbn [filter].
    assert (Hr : successful_on (branch a) r = false).
    { unfold successful_on. apply andb_false_iff.
      destruct (Hnot r (or_introl eq_refl)) as [H|H]; [left|right];
        apply String.eqb_neq; exact H. }
    rewrite Hr. apply IH. intros r' Hr'. apply Hnot. right. exact Hr'. }
  assert (Hm : main gh a = ([no_runs_line (branch a)], Raise (SystemExit 1))).
  { unfold main. rewrite Hnone, get_run_ids_eq, Hruns, Hf. reflexivity. }
  split; [exact Hm|]. rewrite Hm. split; reflexivity.
Qed.

End Properties.

(** * The theorems on sample data

    Each theorem that has a hypothesis is applied here to a sample that meets
    it, on the instances [exact_pow] and [bundle_order]. *)

Section Samples.
Existing Instance exact_pow.
Existing Instance bundle_order.
Import FloatFacts.

Definition sample_rows : Dict.t summary :=
  Eval vm_compute in
    match snd (build_rows Min sample_groups []) with
    | Ok rows => rows
    | Raise _ => []
    end.

Definition sample_summary : summary :=
  Eval vm_compute in
    match Dict.get "transfer" sample_rows with
    | Some s => s
    | None => equal_values_summary 0
    end.

Ltac distinct_keys :=
  unfold Dict.wf, Dict.keys; cbn [map fst];
  repeat (constructor; [cbn [In]; intuition discriminate|]); constructor.

Ltac distinct_strings :=
  cbn; repeat (constructor; [cbn [In]; intuition discriminate|]); constructor.

Section FloatSamples.
Local Open Scope float_scope.

Lemma stats_population_statistics_witness :
  (2 <= List.length [1.5; 2.5]%float)%nat
  /\ deviations_in_range [1.5; 2.5] = true
  /\ stats [1.5; 2.5] = Ok (spec_summary [1.5; 2.5]).
Proof.
  assert (Hlen : (2 <= List.length [1.5; 2.5]%float)%nat) by (simpl; lia).
  assert (Hdev : deviations_in_range [1.5; 2.5] = true) by (vm_compute; reflexivity).
  split; [exact Hlen|]. split; [exact Hdev|].
  exact (proj1 stats_population_statistics _ Hlen Hdev).
Defined.

Lemma stats_equal_values_witness : stats (repeat 5 3) = Ok (equal_values_summary 5).
Proof.
  apply stats_equal_values; [lia | reflexivity | reflexivity | reflexivity].
Defined.

Lemma stats_coefficients_witness :
  exists s : summary,
    stats [1; 3] = Ok s
    /\ ((spec_average [1; 3] =? 0) = false ->
        cv s = (Fmt.fixed 1 (spec_std [1; 3] / spec_average [1; 3] * 100) ++ "%")%string
        /\ range_coeff s
           = (Fmt.fixed 1 (spec_range [1; 3] / spec_average [1; 3] * 100) ++ "%")%string
        /\ _cv_raw s = spec_std [1; 3] / spec_average [1; 3])
    /\ ((spec_average [1; 3] =? 0) = true ->
        cv s = "N/A"%string /\ range_coeff s = "N/A"%string /\ _cv_raw s = -1)
    /\ (cv s = "N/A"%string <-> (spec_average [1; 3] =? 0) = true)
    /\ (range_coeff s = "N/A"%string <-> (spec_average [1; 3] =? 0) = true).
Proof.
  apply stats_coefficients; [simpl; lia | reflexivity | reflexivity | reflexivity | reflexivity].
Defined.

Lemma build_rows_rows_and_diagnostics_witness :
  Dict.wf sample_groups
  /\ exists rows : Dict.t summary,
       build_rows Min sample_groups []
       = (map skip_line (filter short sample_groups), Ok rows).
Proof.
  assert (Hwf : Dict.wf sample_groups) by distinct_keys.
  split; [exact Hwf|].
  apply (build_rows_rows_and_diagnostics Min sample_groups Hwf).
  intros item Hin _. cbn [sample_groups In] in Hin.
  destruct Hin as [<-|[<-|[<-|[]]]]; vm_compute; reflexivity.
Defined.

Lemma analyze_pass_table_witness :
  Dict.wf sample_groups
  /\ build_rows Min sample_groups []
     = (map skip_line (filter short sample_groups), Ok sample_rows)
  /\ sample_rows <> []
  /\ analyze_pass "MIN" Min sample_groups =
       ((map skip_line (filter short sample_groups)
         ++ (Stdout, pass_title "MIN" sample_groups)
            :: (Stdout, table_header (column_width sample_rows))
            :: (Stdout, PyStr.repeat "-"
                          (PyStr.len (table_header (column_width sample_rows))))
            :: map (row_line (column_width sample_rows)) (sorted by_cv sample_rows))%list,
        Ok tt)
  /\ Permutation sample_rows (sorted by_cv sample_rows)
  /\ StronglySorted cv_descending (sorted by_cv sample_rows).
Proof.
  assert (Hwf : Dict.wf sample_groups) by distinct_keys.
  assert (Hrun : build_rows Min sample_groups []
                 = (map skip_line (filter short sample_groups), Ok sample_rows))
    by (vm_compute; reflexivity).
  assert (Hne : sample_rows <> []) by discriminate.
  split; [exact Hwf|]. split; [exact Hrun|]. split; [exact Hne|].
  exact (analyze_pass_table "MIN" Min sample_groups _ _ Hwf Hrun Hne).
Defined.

Lemma build_rows_calls_on_two_or_more_witness :
  build_rows_with stats Min sample_groups []
  = build_rows_with stats_guarded Min sample_groups [].
Proof.
  apply build_rows_calls_on_two_or_more. intros values H. unfold stats_guarded.
  destruct (List.length values <? 2)%nat eqn:E; [|reflexivity].
  apply Nat.ltb_lt in E. lia.
Defined.

Lemma stats_sort_key_witness :
  is_nan (_cv_raw (spec_summary [1; 3])) = false
  /\ (cv (spec_summary [1; 3]) = "N/A"%string -> _cv_raw (spec_summary [1; 3]) = -1)
  /\ (cv (spec_summary [1; 3]) <> "N/A"%string ->
      cv (spec_summary [1; 3])
      = (Fmt.fixed 1 (_cv_raw (spec_summary [1; 3]) * 100) ++ "%")%string).
Proof.
  apply (stats_sort_key [1; 3]). vm_compute. reflexivity.
Defined.

(** C1 as the specification words it fails: on two values whose squared
    deviations are out of range nothing is returned. *)
Lemma stats_overflow_counterexample :
  (2 <= List.length [1e200; -1e200]%float)%nat
  /\ deviations_in_range [1e200; -1e200] = false
  /\ stats [1e200; -1e200] = Raise OverflowError.
Proof. split; [simpl; lia|split; vm_compute; reflexivity]. Qed.

End FloatSamples.

Lemma analyze_all_skipped_witness :
  forallb short sample_single = true
  /\ analyze sample_single
     = ((map skip_line sample_single ++ map skip_line sample_single)%list, Ok tt)
  /\ stdout_of (printed (analyze sample_single)) = [].
Proof. split; [reflexivity|apply analyze_all_skipped; reflexivity]. Defined.

Lemma main_nothing_collected_witness :
  workflow_run_ids (sample_args (Some [3%Z; 3%Z])) = Some [3%Z; 3%Z]
  /\ forallb (fun run => negb (has_perf_artifact sample_remote
                                 (repo (sample_args (Some [3%Z; 3%Z]))) run))
       [3%Z; 3%Z] = true
  /\ collect_jsons sample_remote (repo (sample_args (Some [3%Z; 3%Z]))) [3%Z; 3%Z]
     = (map no_artifact_line [3%Z; 3%Z], Ok [])
  /\ main sample_remote (sample_args (Some [3%Z; 3%Z])) =
     ((using_line [3%Z; 3%Z] :: map no_artifact_line [3%Z; 3%Z]
       ++ [(Stderr, "No results collected.")])%list, Raise (SystemExit 1))
  /\ exit_status (main sample_remote (sample_args (Some [3%Z; 3%Z]))) = 1%Z.
Proof.
  split; [reflexivity|]. split; [reflexivity|].
  apply (main_nothing_collected sample_remote (sample_args (Some [3%Z; 3%Z])) 3%Z [3%Z]);
    reflexivity.
Defined.

Lemma get_run_ids_selects_witness :
  get_run_ids sample_remote "mozilla/neqo" "main"
  = ([found_line 2 "main"], Ok [1%Z; 3%Z])
  /\ [1%Z; 3%Z] <> []
  /\ [found_line 2 "main"] = [found_line (List.length [1%Z; 3%Z]) "main"]
  /\ exists data,
       workflow_runs sample_remote "mozilla/neqo" = Answer data
       /\ [1%Z; 3%Z] = map run_id (filter (successful_on "main") data)
       /\ forall id, In id [1%Z; 3%Z] <->
                     exists r, In r data /\ run_id r = id
                               /\ head_branch r = "main" /\ conclusion r = "success".
Proof.
  assert (H : get_run_ids sample_remote "mozilla/neqo" "main"
              = ([found_line 2 "main"], Ok [1%Z; 3%Z])) by reflexivity.
  split; [exact H|].
  exact (get_run_ids_selects sample_remote "mozilla/neqo" "main" _ _ H).
Defined.

Lemma main_explicit_ids_skip_discovery_witness :
  workflow_run_ids (sample_args (Some [1%Z; 2%Z])) = Some [1%Z; 2%Z]
  /\ main (with_workflow_runs sample_remote (fun _ => Fails CalledProcessError))
          (sample_args (Some [1%Z; 2%Z]))
     = main sample_remote (sample_args (Some [1%Z; 2%Z])).
Proof.
  split; [reflexivity|].
  apply (main_explicit_ids_skip_discovery sample_remote (sample_args (Some [1%Z; 2%Z]))
           (fun _ => Fails CalledProcessError) 1%Z [2%Z]).
  reflexivity.
Defined.

Lemma download_artifact_lists_witness :
  zip sample_remote "mozilla/neqo" (artifact_id sample_artifact) = Answer sample_members
  /\ zip_path_is_directory (artifact_name sample_artifact) sample_tmp = false
  /\ out_dir_is_file (artifact_name sample_artifact) sample_tmp = false
  /\ NoDup (map stem sample_members)
  /\ NoDup (map file_stem (listing (artifact_name sample_artifact) sample_tmp))
  /\ exists tmp' files,
       download_artifact sample_remote "mozilla/neqo" 2 sample_artifact sample_tmp
       = Ok (tmp', files)
       /\ In stale_file files
       /\ ~ In replaced_file files.
Proof.
  assert (Hm : NoDup (map stem sample_members)) by distinct_strings.
  assert (Hd : NoDup (map file_stem (listing (artifact_name sample_artifact) sample_tmp)))
    by distinct_strings.
  do 3 (split; [reflexivity|]). split; [exact Hm|]. split; [exact Hd|].
  destruct (download_artifact_lists sample_remote "mozilla/neqo" 2 sample_artifact
              sample_tmp sample_members eq_refl) as [_ [_ H]].
  destruct (H eq_refl eq_refl Hm Hd) as [tmp' [files [Hok [_ [_ Hiff]]]]].
  exists tmp', files. split; [exact Hok|]. split.
  - apply Hiff. right. split; [left; reflexivity|].
    intros m [<-|[<-|[]]]; discriminate.
  - intros Hin. apply Hiff in Hin. destruct Hin as [[m [Hin Heq]]|[_ Hs]].
    + destruct Hin as [<-|[<-|[]]]; discriminate.
    + exact (Hs _ (or_introl eq_refl) eq_refl).
Defined.

Lemma collect_jsons_groups_witness :
  exists (out : list line) (by_bench : bench_groups),
    collect_jsons sample_remote "mozilla/neqo" [1%Z; 2%Z; 3%Z] = (out, Ok by_bench)
    /\ by_bench <> []
    /\ Dict.wf by_bench
    /\ forall bench group, In (bench, group) by_bench ->
         group <> []
         /\ forall e, In e group ->
              exists run a members m rest,
                In run [1%Z; 2%Z; 3%Z]
                /\ In a (perf_artifacts sample_remote "mozilla/neqo" run)
                /\ zip sample_remote "mozilla/neqo" (artifact_id a) = Answer members
                /\ In m members
                /\ stem m = bench /\ results m = Answer (hyperfine e :: rest).
Proof.
  eexists _, _. split; [vm_compute; reflexivity|]. split; [discriminate|].
  eapply (collect_jsons_groups sample_remote "mozilla/neqo" [1%Z; 2%Z; 3%Z]).
  vm_compute. reflexivity.
Defined.

Lemma table_rows_width_witness :
  In ("transfer", sample_summary) sample_rows
  /\ fits_columns sample_summary
  /\ PyStr.len (table_row (column_width sample_rows) "transfer" sample_summary)
     = column_width sample_rows + 58
  /\ PyStr.len (table_header (column_width sample_rows))
     = Nat.max (column_width sample_rows) 9 + 58.
Proof.
  assert (Hin : In ("transfer", sample_summary) sample_rows) by (left; reflexivity).
  assert (Hfit : fits_columns sample_summary) by (vm_compute; lia).
  split; [exact Hin|]. split; [exact Hfit|].
  exact (table_rows_width sample_rows "transfer" sample_summary Hin Hfit).
Defined.

Lemma analyze_pass_reads_selected_field_witness :
  same_values Min sample_groups sample_groups_other
  /\ analyze_pass "MIN" Min sample_groups = analyze_pass "MIN" Min sample_groups_other.
Proof.
  assert (H : same_values Min sample_groups sample_groups_other)
    by (repeat constructor).
  split; [exact H|]. exact (analyze_pass_reads_selected_field "MIN" Min _ _ H).
Defined.

Lemma collect_jsons_distinct_runs_witness :
  NoDup [1%Z; 2%Z; 3%Z]
  /\ same_benchmarks sample_remote "mozilla/neqo" [1%Z; 2%Z; 3%Z]
  /\ exists (out : list line) (by_bench : bench_groups),
       collect_jsons sample_remote "mozilla/neqo" [1%Z; 2%Z; 3%Z] = (out, Ok by_bench)
       /\ by_bench <> []
       /\ forall bench group, In (bench, group) by_bench ->
            NoDup (map origin group) /\ (List.length group <= 3)%nat.
Proof.
  assert (Hruns : NoDup [1%Z; 2%Z; 3%Z])
    by (repeat (constructor; [cbn [In]; intuition discriminate|]); constructor).
  assert (Hsame : same_benchmarks sample_remote "mozilla/neqo" [1%Z; 2%Z; 3%Z]).
  { intros r1 r2 a1 a2 H1 H2 _ _ _ s Hs. exact Hs. }
  split; [exact Hruns|]. split; [exact Hsame|].
  eexists _, _. split; [vm_compute; reflexivity|]. split; [discriminate|].
  eapply (collect_jsons_distinct_runs sample_remote "mozilla/neqo" [1%Z; 2%Z; 3%Z]);
    [exact Hruns| |exact Hsame|vm_compute; reflexivity].
  intros run [<-|[<-|[<-|[]]]]; distinct_strings.
Defined.

Lemma main_discovered_runs_witness :
  workflow_run_ids (sample_args None) = None
  /\ get_run_ids sample_remote (repo (sample_args None)) (branch (sample_args None))
     = ([found_line 2 "main"], Ok [1%Z; 3%Z])
  /\ main sample_remote (sample_args None)
     = (([found_line 2 "main"]
         ++ fst (main sample_remote (with_run_ids (sample_args None) [1%Z; 3%Z])))%list,
        snd (main sample_remote (with_run_ids (sample_args None) [1%Z; 3%Z]))).
Proof.
  assert (H : get_run_ids sample_remote (repo (sample_args None)) (branch (sample_args None))
              = ([found_line 2 "main"], Ok [1%Z; 3%Z])) by reflexivity.
  split; [reflexivity|]. split; [exact H|].
  apply (main_discovered_runs sample_remote (sample_args None) _ _ eq_refl H).
Defined.

Lemma main_no_successful_run_witness :
  main sample_remote {| repo := "mozilla/neqo"; branch := "release";
                        workflow_run_ids := None |}
  = ([no_runs_line "release"], Raise (SystemExit 1))
  /\ stdout_of (printed (main sample_remote {| repo := "mozilla/neqo"; branch := "release";
                                               workflow_run_ids := None |})) = []
  /\ exit_status (main sample_remote {| repo := "mozilla/neqo"; branch := "release";
                                        workflow_run_ids := None |}) = 1%Z.
Proof.
  eapply (main_no_successful_run sample_remote
            {| repo := "mozilla/neqo"; branch := "release"; workflow_run_ids := None |});
    [reflexivity|reflexivity|].
  intros r [<-|[<-|[<-|[]]]]; left; discriminate.
Defined.

Lemma sorted_rows_stable_witness :
  Dict.wf sample_ties
  /\ exists (out : list line) (rows : Dict.t summary),
       build_rows Min sample_ties [] = (out, Ok rows)
       /\ rows <> []
       /\ exists table : list (string * summary),
            analyze_pass "MIN" Min sample_ties =
              ((out ++ (Stdout, pass_title "MIN" sample_ties)
                    :: (Stdout, table_header (column_width rows))
                    :: (Stdout, PyStr.repeat "-"
                                  (PyStr.len (table_header (column_width rows))))
                    :: map (row_line (column_width rows)) table)%list, Ok tt)
            /\ (forall c : float, filter (same_cv c) table = filter (same_cv c) rows)
            /\ (forall row, In row rows -> same_cv (_cv_raw (snd row)) row = true).
Proof.
  assert (Hwf : Dict.wf sample_ties) by distinct_keys.
  split; [exact Hwf|].
  eexists _, _. split; [vm_compute; reflexivity|]. split; [discriminate|].
  eapply (sorted_rows_stable "MIN" Min sample_ties); [exact Hwf| |discriminate].
  vm_compute. reflexivity.
Defined.

End Samples.
